(** * Attendance ledger of the HR backend

    A shallow embedding of the attendance part of the backend:

    - the [employee_checkins] table of [src/migrations/migrate.js] with its
      defaults, its constraints, its three generated [HH:MM] columns and its
      [BEFORE UPDATE] trigger;
    - the stored procedures [create_checkin] and [update_checkin_status] of
      the same file;
    - the three route handlers [POST /employee-checkins],
      [PUT /employee-checkins/:id] and [GET /get-employee-checkin].

    SQL values are modelled as follows.  [BIGINT] and [INTEGER] are [Z];
    a [DATE] is a day number; a [TIME] is a number of microseconds since
    midnight (the resolution of PostgreSQL); a [TIMESTAMP] is a number of
    microseconds; [VARCHAR] is [string], the bytes of a text in UTF-8; a
    nullable column is an [option].  A displacement from UTC is a number of
    microseconds, positive to the east.  The table is the list of its
    rows, in insertion order. *)

From Stdlib Require Import ZArith Lia DecimalString.
From stdpp Require Import base list strings sorting.

Local Open Scope Z_scope.

(** ** Time formatter: the expression of the generated columns *)

Module TimeFormatter.

(** [(n)::TEXT] for an integer: decimal digits, a leading [-] when negative. *)
Definition int4_text (n : Z) : string :=
  NilZero.string_of_int (Z.to_int n).

(** The first [n] characters of the endless repetition of [fill]. *)
Definition fill_text (fill : string) (n : nat) : string :=
  String.substring 0 n (String.concat EmptyString (replicate n fill)).

(** [LPAD(s, len, fill)]: pads on the left up to [len] characters, and
    cuts [s] down to its first [len] characters when it is longer. *)
Definition LPAD (s : string) (len : nat) (fill : string) : string :=
  if (len <=? String.length s)%nat
  then String.substring 0 len s
  else fill_text fill (len - String.length s) +:+ s.

(** [LPAD((m / 60)::TEXT, 2, '0') || ':' || LPAD((m % 60)::TEXT, 2, '0')];
    on integers [/] truncates towards zero and [%] takes the sign of the
    dividend. *)
Definition hours_text (m : Z) : string :=
  LPAD (int4_text (Z.quot m 60)) 2 "0" +:+ ":" +:+
  LPAD (int4_text (Z.rem m 60)) 2 "0".

(** Modelled from the spec: the reading [HH:MM -> minutes] of the spec's
    round-trip property, which the repository does not contain.  The text
    before the first colon and the text after it are read as unsigned
    decimal numbers [h] and [mm]; the result is [h * 60 + mm]. *)
Definition parse_hhmm (s : string) : option Z :=
  match String.index 0 ":" s with
  | None => None
  | Some i =>
      let hh := String.substring 0 i s in
      let mm := String.substring (S i) (String.length s - S i) s in
      match NilZero.uint_of_string hh, NilZero.uint_of_string mm with
      | Some h, Some m => Some (Z.of_uint h * 60 + Z.of_uint m)
      | _, _ => None
      end
  end.

(** The round trip checked on every minute count of [0, bound). *)
Definition roundtrip_below (bound : Z) : bool :=
  forallb (fun m => bool_decide (parse_hhmm (hours_text m) = Some m))
          (seqZ 0 bound).

End TimeFormatter.

(** ** The record store *)

Module Store.
Import TimeFormatter.

Definition microseconds_per_minute : Z := 60 * 1000000.
Definition microseconds_per_day : Z := 24 * 60 * microseconds_per_minute.

(** A [TIME] value from hours, minutes and seconds. *)
Definition time_of_hms (h m s : Z) : Z := ((h * 60 + m) * 60 + s) * 1000000.

(** A row of [employee_checkins].  The three generated columns are not
    fields: they are recomputed from the minute columns on every write. *)
Record checkin_row : Type := CheckinRow {
  id : Z;
  user_id : Z;
  checkin_date : Z;
  checkin_time : Z;
  checkout_time : option Z;
  status : string;
  on_break : bool;
  total_working_minutes : Z;
  total_break_minutes : Z;
  total_daily_minutes : Z;
  created_at : Z;
  updated_at : Z
}.

Definition total_working_hours (r : checkin_row) : string :=
  hours_text (total_working_minutes r).
Definition total_break_hours (r : checkin_row) : string :=
  hours_text (total_break_minutes r).
Definition total_daily_hours (r : checkin_row) : string :=
  hours_text (total_daily_minutes r).

(** [CHECK (status IN ('checkin', 'break', 'checkout'))] *)
Definition status_check (r : checkin_row) : bool :=
  bool_decide (status r ∈ ["checkin"; "break"; "checkout"]).

(** The table and the sequence behind [id BIGSERIAL]. *)
Record database : Type := Database {
  employee_checkins : list checkin_row;
  employee_checkins_id_seq : Z
}.

(** The database after the migration: it inserts no check-in. *)
Definition migrated : database :=
  {| employee_checkins := []; employee_checkins_id_seq := 1 |}.

(** What a statement reads from the server's clock and from the
    [TimeZone] of its session.  Date, time and timestamp are those of the
    wall clock in that zone.  [CURRENT_TIME] is a [time with time zone]:
    it carries [utc_offset], the displacement of the zone from UTC at the
    moment.  [TimeZone ts] is the displacement the zone gives the local
    timestamp [ts]; it differs from [utc_offset] when the clocks of the
    zone were changed in between. *)
Record clock : Type := Clock {
  CURRENT_DATE : Z;
  CURRENT_TIME : Z;
  CURRENT_TIMESTAMP : Z;
  utc_offset : Z;
  TimeZone : Z -> Z
}.

Inductive pg_error : Type :=
| unique_violation (constraint : string)
| check_violation (constraint : string)
| foreign_key_violation (constraint : string)
| numeric_value_out_of_range (type_name : string)
| string_data_right_truncation (type_name : string).

(** The values of [BIGINT]. *)
Definition is_bigint (n : Z) : Prop := - 2 ^ 63 <= n < 2 ^ 63.

#[export] Instance is_bigint_dec (n : Z) : Decision (is_bigint n).
Proof. unfold is_bigint. apply _. Defined.

(** In UTF-8 a byte [10xxxxxx] continues the character before it. *)
Definition continues (c : Ascii.ascii) : bool :=
  (128 <=? Ascii.nat_of_ascii c)%nat && (Ascii.nat_of_ascii c <? 192)%nat.

(** The text without its first [n] characters. *)
Fixpoint drop_characters (n : nat) (s : string) : string :=
  match s with
  | EmptyString => EmptyString
  | String c s' =>
      if continues c then drop_characters n s'
      else match n with
           | O => s
           | S n' => drop_characters n' s'
           end
  end.

Fixpoint all_spaces (s : string) : bool :=
  match s with
  | EmptyString => true
  | String c s' => bool_decide (c = Ascii.Space) && all_spaces s'
  end.

(** The assignment of a text to a [VARCHAR(n)] column: a text of more
    than [n] characters is refused, unless the characters in excess are
    all spaces, which are then cut off. *)
Definition varchar (n : nat) (s : string) : pg_error + string :=
  let excess := drop_characters n s in
  if all_spaces excess
  then inr (String.substring 0 (String.length s - String.length excess) s)
  else inl (string_data_right_truncation "character varying").

(** Assignment of a [numeric] quotient [num / den] ([den > 0]) to an
    [INTEGER] column: the nearest integer, a tie going away from zero. *)
Definition numeric_to_int4 (num den : Z) : Z :=
  Z.sgn num * ((2 * Z.abs num + den) / (2 * den)).

(** [date + time], a timestamp in microseconds. *)
Definition date_plus_time (d t : Z) : Z := d * microseconds_per_day + t.

(** [date + time with time zone], a [timestamp with time zone]: the
    microseconds of the instant in UTC. *)
Definition date_plus_timetz (d t displacement : Z) : Z :=
  date_plus_time d t - displacement.

(** A [timestamp] taken as a [timestamp with time zone]: it is read on
    the wall clock of the session's zone. *)
Definition timestamptz_of_timestamp (clk : clock) (ts : Z) : Z :=
  ts - TimeZone clk ts.

(** [EXTRACT(EPOCH FROM ((checkin_date + current_time) -
    (checkin_date + checkin_time))) / 60], stored in an [INTEGER].  In the
    [UPDATE], [current_time] is the SQL keyword, a [time with time zone],
    and not the variable of that name that the function declares: the
    left operand is a [timestamp with time zone], and the right one is
    converted to one for the subtraction. *)
Definition daily_minutes (r : checkin_row) (clk : clock) : Z :=
  numeric_to_int4
    (date_plus_timetz (checkin_date r) (CURRENT_TIME clk) (utc_offset clk)
     - timestamptz_of_timestamp clk
         (date_plus_time (checkin_date r) (checkin_time r)))
    microseconds_per_minute.

(** *** Statements on the table *)

(** A statement either fails and leaves the table as it was, or
    succeeds.  The sequence is not rolled back by a failure. *)
Definition sql (A : Type) : Type := database -> (pg_error + A) * database.

(** [SELECT id FROM employee_checkins
     WHERE user_id = $1 AND checkin_date = $2] *)
Definition select_existing_checkin (p_user_id p_date : Z) (d : database)
  : list Z :=
  id <$> filter (fun r => user_id r = p_user_id /\ checkin_date r = p_date)
                (employee_checkins d).

(** The row that [create_checkin] inserts: the four values it gives, and
    the column defaults for the rest. *)
Definition new_checkin (clk : clock) (new_id p_user_id : Z) : checkin_row :=
  {| id := new_id;
     user_id := p_user_id;
     checkin_date := CURRENT_DATE clk;
     checkin_time := CURRENT_TIME clk;
     checkout_time := None;
     status := "checkin";
     on_break := false;
     total_working_minutes := 0;
     total_break_minutes := 0;
     total_daily_minutes := 0;
     created_at := CURRENT_TIMESTAMP clk;
     updated_at := CURRENT_TIMESTAMP clk |}.

(** [create_checkin(p_user_id)]: one [INSERT ... RETURNING id].  The
    primary key and [UNIQUE(user_id, checkin_date)] are checked when the
    row goes in, and [user_id REFERENCES users(id)] at the end of the
    statement, against [users], the ids of the rows of the users table. *)
Definition create_checkin (clk : clock) (users : list Z) (p_user_id : Z)
  : sql Z :=
  fun d =>
    let new_id := employee_checkins_id_seq d in
    let rows := employee_checkins d in
    let row := new_checkin clk new_id p_user_id in
    let advanced := {| employee_checkins := rows;
                       employee_checkins_id_seq := new_id + 1 |} in
    if bool_decide (Exists (fun r => id r = new_id) rows)
    then (inl (unique_violation "employee_checkins_pkey"), advanced)
    else if bool_decide
              (Exists (fun r => user_id r = p_user_id /\
                                checkin_date r = checkin_date row) rows)
    then (inl (unique_violation
                 "employee_checkins_user_id_checkin_date_key"), advanced)
    else if bool_decide (p_user_id ∈ users)
    then (inr new_id,
          {| employee_checkins := rows ++ [row];
             employee_checkins_id_seq := new_id + 1 |})
    else (inl (foreign_key_violation "employee_checkins_user_id_fkey"),
          advanced).

(** The [SET] list of the [checkout] branch of [update_checkin_status]. *)
Definition set_checkout (clk : clock) (p_new_status : string)
    (r : checkin_row) : checkin_row :=
  {| id := id r;
     user_id := user_id r;
     checkin_date := checkin_date r;
     checkin_time := checkin_time r;
     checkout_time := Some (CURRENT_TIME clk);
     status := p_new_status;
     on_break := false;
     total_working_minutes := total_working_minutes r;
     total_break_minutes := total_break_minutes r;
     total_daily_minutes := daily_minutes r clk;
     created_at := created_at r;
     updated_at := CURRENT_TIMESTAMP clk |}.

(** The [SET] list of the other branch; [stored] is [p_new_status] as
    the [VARCHAR(20)] column takes it. *)
Definition set_status (clk : clock) (stored p_new_status : string)
    (r : checkin_row) : checkin_row :=
  {| id := id r;
     user_id := user_id r;
     checkin_date := checkin_date r;
     checkin_time := checkin_time r;
     checkout_time := checkout_time r;
     status := stored;
     on_break := bool_decide (p_new_status = "break");
     total_working_minutes := total_working_minutes r;
     total_break_minutes := total_break_minutes r;
     total_daily_minutes := total_daily_minutes r;
     created_at := created_at r;
     updated_at := CURRENT_TIMESTAMP clk |}.

(** The trigger [update_employee_checkins_updated_at]:
    [NEW.updated_at = CURRENT_TIMESTAMP] before every row update. *)
Definition update_updated_at_column (clk : clock) (r : checkin_row)
  : checkin_row :=
  {| id := id r;
     user_id := user_id r;
     checkin_date := checkin_date r;
     checkin_time := checkin_time r;
     checkout_time := checkout_time r;
     status := status r;
     on_break := on_break r;
     total_working_minutes := total_working_minutes r;
     total_break_minutes := total_break_minutes r;
     total_daily_minutes := total_daily_minutes r;
     created_at := created_at r;
     updated_at := CURRENT_TIMESTAMP clk |}.

(** [UPDATE employee_checkins SET ... WHERE id = p_checkin_id] on one row. *)
Definition update_row (clk : clock) (set : checkin_row -> checkin_row)
    (p_checkin_id : Z) (r : checkin_row) : checkin_row :=
  if bool_decide (id r = p_checkin_id)
  then update_updated_at_column clk (set r)
  else r.

(** The whole [UPDATE]: every row with the given [id] is rewritten, and
    the statement fails, changing nothing, when a rewritten row breaks
    the [CHECK] on [status].  Neither [SET] list touches a key column. *)
Definition update_where_id (clk : clock)
    (set : checkin_row -> checkin_row) (p_checkin_id : Z) : sql unit :=
  fun d =>
    let rows := employee_checkins d in
    if forallb (fun r => negb (bool_decide (id r = p_checkin_id))
                         || status_check (set r)) rows
    then (inr tt,
          {| employee_checkins := update_row clk set p_checkin_id <$> rows;
             employee_checkins_id_seq := employee_checkins_id_seq d |})
    else (inl (check_violation "employee_checkins_status_check"), d).

(** [update_checkin_status(p_checkin_id, p_new_status)].  The length
    declared for the parameter is not enforced on a call; the assignment
    to the column [status VARCHAR(20)] is what refuses a longer text, and
    it does so when the [UPDATE] is prepared, before any row is looked
    at. *)
Definition update_checkin_status (clk : clock) (p_checkin_id : Z)
    (p_new_status : string) : sql unit :=
  if bool_decide (p_new_status = "checkout")
  then update_where_id clk (set_checkout clk p_new_status) p_checkin_id
  else match varchar 20 p_new_status with
       | inl e => fun d => (inl e, d)
       | inr stored =>
           update_where_id clk (set_status clk stored p_new_status)
                           p_checkin_id
       end.

End Store.

(** ** The rows of the history query *)

Module HistoryRow.
(** The seven columns selected by [GET /get-employee-checkin]. *)
Record t : Type := Make {
  checkin_date : Z;
  checkin_time : Z;
  checkout_time : option Z;
  total_working_hours : string;
  total_break_hours : string;
  total_daily_hours : string;
  status : string
}.
End HistoryRow.

Module History.
Import Store.

Definition project (r : checkin_row) : HistoryRow.t :=
  {| HistoryRow.checkin_date := checkin_date r;
     HistoryRow.checkin_time := checkin_time r;
     HistoryRow.checkout_time := checkout_time r;
     HistoryRow.total_working_hours := total_working_hours r;
     HistoryRow.total_break_hours := total_break_hours r;
     HistoryRow.total_daily_hours := total_daily_hours r;
     HistoryRow.status := status r |}.

(** [ORDER BY checkin_date DESC]: [r1] may come before [r2]. *)
Definition date_desc (r1 r2 : checkin_row) : Prop :=
  checkin_date r2 <= checkin_date r1.

#[export] Instance date_desc_dec (r1 r2 : checkin_row)
  : Decision (date_desc r1 r2) := Z_le_dec _ _.

(** [WHERE user_id = $1] *)
Definition rows_of (p_user_id : Z) (d : database) : list checkin_row :=
  filter (fun r => user_id r = p_user_id) (employee_checkins d).

(** [WHERE user_id = $1 ORDER BY checkin_date DESC].  The server may put
    rows of the same date in any order; the model takes the order of a
    merge sort.  A consistent table has no two such rows for one employee. *)
Definition ordered_rows_of (p_user_id : Z) (d : database)
  : list checkin_row :=
  merge_sort date_desc (rows_of p_user_id d).

(** [SELECT ... FROM employee_checkins WHERE user_id = $1
     ORDER BY checkin_date DESC LIMIT 30] *)
Definition select_checkin_history (p_user_id : Z) (d : database)
  : list HistoryRow.t :=
  project <$> take 30 (ordered_rows_of p_user_id d).

End History.

(** ** The route handlers *)

Module Routes.
Import Store History.

(** The statements a handler can send through [pool.query]. *)
Inductive statement : Type :=
| SELECT_existing_checkin (p_user_id p_date : Z)
| SELECT_create_checkin (p_user_id : Z)
| SELECT_update_checkin_status (p_checkin_id : Z) (p_new_status : string)
| SELECT_checkin_history (p_user_id : Z).

(** The server side of a run: the database and the statements received,
    oldest first. *)
Record server : Type := Server {
  db : database;
  received : list statement
}.

Definition started : server := {| db := migrated; received := [] |}.

(** The times a request sees: the two readings of [new Date()] in the
    handler and the clock of the database server. *)
Record instant : Type := Instant {
  toISOString_date : Z;
  toTimeString_time : Z;
  pg_clock : clock
}.

(** A handler body: it returns a value or throws, and the server moves. *)
Definition io (A : Type) : Type := server -> (pg_error + A) * server.

#[export] Instance io_ret : MRet io := fun A a s => (inr a, s).

#[export] Instance io_bind : MBind io := fun A B k m s =>
  match m s with
  | (inl e, s') => (inl e, s')
  | (inr a, s') => k a s'
  end.

(** [await pool.query(text, params)] for a statement that only reads. *)
Definition query_read {A} (q : statement) (f : database -> A) : io A :=
  fun s => (inr (f (db s)),
            {| db := db s; received := received s ++ [q] |}).

(** [await pool.query(text, params)] for a call of a stored procedure. *)
Definition query_call {A} (q : statement) (f : sql A) : io A :=
  fun s =>
    let '(r, d) := f (db s) in
    (r, {| db := d; received := received s ++ [q] |}).

(** A parameter that the statement takes as a [BIGINT]: the statement
    is refused when the number does not fit. *)
Definition bigint_param {A} (n : Z) (f : Z -> sql A) : sql A :=
  fun d =>
    if bool_decide (is_bigint n) then f n d
    else (inl (numeric_value_out_of_range "bigint"), d).

(** The JSON envelope [{ message?, body? }] with its status code. *)
Inductive json_body : Type :=
| checkin_created (id checkin_date checkin_time : Z)
| checkin_history (data : list HistoryRow.t).

Record response : Type := Response {
  status_code : Z;
  message : option string;
  body : option json_body
}.

(** [try { ... } catch (error) { res.status(500).json(...) }] *)
Definition try_catch (m : io response) : server -> response * server :=
  fun s =>
    match m s with
    | (inr r, s') => (r, s')
    | (inl _, s') =>
        ({| status_code := 500;
            message := Some "Internal server error";
            body := None |}, s')
    end.

(** A value of the request body. *)
Inductive js_value : Type :=
| js_undefined
| js_null
| js_boolean (b : bool)
| js_number (n : Z)
| js_string (s : string)
| js_object.

(** [array.includes(v)] for an array of string literals: only a string
    can be equal to one of them. *)
Definition includes (array : list string) (v : js_value) : bool :=
  match v with
  | js_string s => bool_decide (s ∈ array)
  | _ => false
  end.

(** The text that reaches the server for a parameter that passed
    [includes]. *)
Definition text_param (v : js_value) : string :=
  match v with
  | js_string s => s
  | _ => EmptyString
  end.

(** [router.post('/employee-checkins', authenticateToken, ...)], for the
    user [req.user.id] that the token resolved to: [authenticateToken]
    has just read the users row with this id, so that much of the users
    table is known when [create_checkin] is called. *)
Definition post_employee_checkins (now : instant) (userId : Z)
  : server -> response * server :=
  try_catch (
    let today := toISOString_date now in
    existingCheckin ←
      query_read (SELECT_existing_checkin userId today)
                 (select_existing_checkin userId today);
    if bool_decide (0 < length existingCheckin)%nat
    then mret {| status_code := 400;
                 message := Some "You have already checked in today";
                 body := None |}
    else
      checkinId ←
        query_call (SELECT_create_checkin userId)
                   (create_checkin (pg_clock now) [userId] userId);
      mret {| status_code := 201;
              message := Some "Check-in successful";
              body := Some (checkin_created checkinId today
                                            (toTimeString_time now)) |}).

(** The [switch (type)] that picks the message. *)
Definition transition_message (type : string) : string :=
  if bool_decide (type = "break") then "Break started"
  else if bool_decide (type = "checkin") then "Back to work"
  else if bool_decide (type = "checkout") then "Checked out successfully"
  else EmptyString.

(** [router.put('/employee-checkins/:id', authenticateToken, ...)], for a
    path parameter that is the text of the integer [checkinId]; the
    server reads it as the [BIGINT] argument of the function. *)
Definition put_employee_checkins (now : instant) (checkinId : Z)
    (type : js_value) : server -> response * server :=
  try_catch (
    if negb (includes ["break"; "checkin"; "checkout"] type)
    then mret {| status_code := 400;
                 message := Some "Invalid status type";
                 body := None |}
    else
      _ ← query_call
            (SELECT_update_checkin_status checkinId (text_param type))
            (bigint_param checkinId (fun p_checkin_id =>
               update_checkin_status (pg_clock now) p_checkin_id
                                     (text_param type)));
      mret {| status_code := 200;
              message := Some (transition_message (text_param type));
              body := None |}).

(** [router.get('/get-employee-checkin', authenticateToken, ...)] *)
Definition get_employee_checkin (userId : Z)
  : server -> response * server :=
  try_catch (
    checkins ←
      query_read (SELECT_checkin_history userId)
                 (select_checkin_history userId);
    mret {| status_code := 200;
            message := None;
            body := Some (checkin_history checkins) |}).

(** *** Runs of the server *)

Inductive request : Type :=
| POST_employee_checkins (now : instant) (userId : Z)
| PUT_employee_checkins (now : instant) (checkinId : Z) (type : js_value)
| GET_employee_checkin (userId : Z).

Definition handle (rq : request) : server -> response * server :=
  match rq with
  | POST_employee_checkins now userId => post_employee_checkins now userId
  | PUT_employee_checkins now checkinId type =>
      put_employee_checkins now checkinId type
  | GET_employee_checkin userId => get_employee_checkin userId
  end.

(** The server after a list of requests, handled one after the other. *)
Definition run (rqs : list request) (s : server) : server :=
  foldl (fun s rq => (handle rq s).2) s rqs.

(** The states the server can be in: it starts on the migrated database
    and handles requests. *)
Inductive reachable : server -> Prop :=
| reachable_started : reachable started
| reachable_handle rq s : reachable s -> reachable (handle rq s).2.

(** The row with a given [id], if the table has one.  The column is a
    [BIGINT]: a number outside its range names no row. *)
Definition find_checkin (p_id : Z) (s : server) : option checkin_row :=
  if bool_decide (is_bigint p_id)
  then head (filter (fun r => id r = p_id) (employee_checkins (db s)))
  else None.

(** The rows of one employee on one day. *)
Definition checkins_on (p_user_id p_date : Z) (s : server)
  : list checkin_row :=
  filter (fun r => user_id r = p_user_id /\ checkin_date r = p_date)
         (employee_checkins (db s)).

(** A clock reading [d], [t] on both sides, in a session whose
    [TimeZone] is UTC. *)
Definition at_time (d t : Z) : instant :=
  {| toISOString_date := d;
     toTimeString_time := t;
     pg_clock := {| CURRENT_DATE := d;
                    CURRENT_TIME := t;
                    CURRENT_TIMESTAMP := date_plus_time d t;
                    utc_offset := 0;
                    TimeZone := fun _ => 0 |} |}.

End Routes.

(** ** Invariants of the table *)

Module Invariants.
Import Store Routes.

(** The [SET] list that [update_checkin_status] picks for a status
    that fits the column. *)
Definition transition_set (clk : clock) (p_new_status : string)
  : checkin_row -> checkin_row :=
  if bool_decide (p_new_status = "checkout")
  then set_checkout clk p_new_status
  else set_status clk p_new_status p_new_status.

(** [on_break] is true exactly on the rows in status [break]. *)
Definition on_break_iff_break (r : checkin_row) : Prop :=
  on_break r = bool_decide (status r = "break").

(** The key of [UNIQUE(user_id, checkin_date)]. *)
Definition day_key (r : checkin_row) : Z * Z := (user_id r, checkin_date r).

(** What the schema and the sequence guarantee of a table. *)
Record consistent (d : database) : Prop := Consistent {
  primary_key : NoDup (id <$> employee_checkins d);
  below_sequence :
    Forall (fun r => id r < employee_checkins_id_seq d) (employee_checkins d);
  one_per_day : NoDup (day_key <$> employee_checkins d);
  status_checked :
    Forall (fun r => status_check r = true) (employee_checkins d);
  break_flag : Forall on_break_iff_break (employee_checkins d)
}.


(** The stored state of a record, as far as the ledger goes: status,
    break flag, check-out time and the three minute counters. *)
Definition same_ledger_state (r r' : checkin_row) : Prop :=
  status r' = status r /\ on_break r' = on_break r /\
  checkout_time r' = checkout_time r /\
  total_working_minutes r' = total_working_minutes r /\
  total_break_minutes r' = total_break_minutes r /\
  total_daily_minutes r' = total_daily_minutes r.



(** One employee checking in on each of the days [1 .. n]. *)
Definition daily_checkins (userId : Z) (n : nat) : list request :=
  (fun d => POST_employee_checkins (at_time d (time_of_hms 9 0 0)) userId)
    <$> seqZ 1 (Z.of_nat n).

End Invariants.

(** ** Some runs of the server *)

Module Scenarios.
Import Store Routes.

(** Employee 7 checks in at 09:00:00 on day 100 and checks out at
    17:30:00 the same day. *)
Definition nine_to_half_past_five : list request :=
  [POST_employee_checkins (at_time 100 (time_of_hms 9 0 0)) 7;
   PUT_employee_checkins (at_time 100 (time_of_hms 17 30 0)) 1
                         (js_string "checkout")].

Definition checked_out : server := run nine_to_half_past_five started.

(** Employee 7 has checked in and is on a break. *)
Definition on_a_break : server :=
  run [POST_employee_checkins (at_time 100 (time_of_hms 9 0 0)) 7;
       PUT_employee_checkins (at_time 100 (time_of_hms 12 0 0)) 1
                             (js_string "break")] started.

Definition six_pm : instant := at_time 100 (time_of_hms 18 0 0).

(** An instant of the small hours of day 100 in a session whose
    [TimeZone] is five hours east of UTC: [toISOString] still reads day
    99.  The application server is in the same zone. *)
Definition small_hours (t : Z) : instant :=
  {| toISOString_date := 99;
     toTimeString_time := t;
     pg_clock := {| CURRENT_DATE := 100;
                    CURRENT_TIME := t;
                    CURRENT_TIMESTAMP := date_plus_time 100 t;
                    utc_offset := time_of_hms 5 0 0;
                    TimeZone := fun _ => time_of_hms 5 0 0 |} |}.

(** Employee 7 has checked in at 00:30:00 of that day. *)
Definition checked_in_after_midnight : server :=
  run [POST_employee_checkins (small_hours (time_of_hms 0 30 0)) 7] started.

(** A zone that puts its clocks forward at 02:00:00 of day 100: one hour
    east of UTC before, two hours from then on. *)
Definition clocks_go_forward (ts : Z) : Z :=
  if bool_decide (ts < date_plus_time 100 (time_of_hms 2 0 0))
  then time_of_hms 1 0 0
  else time_of_hms 2 0 0.

(** An instant of day 100 in a session of that zone, from 01:00:00 on. *)
Definition on_the_day_of_the_change (t : Z) : instant :=
  {| toISOString_date := 100;
     toTimeString_time := t;
     pg_clock := {| CURRENT_DATE := 100;
                    CURRENT_TIME := t;
                    CURRENT_TIMESTAMP := date_plus_time 100 t;
                    utc_offset := clocks_go_forward (date_plus_time 100 t);
                    TimeZone := clocks_go_forward |} |}.

(** Employee 7 has checked in at 01:00:00 of that day. *)
Definition checked_in_before_the_change : server :=
  run [POST_employee_checkins
         (on_the_day_of_the_change (time_of_hms 1 0 0)) 7] started.

End Scenarios.

(** ** More of the ledger *)

Module Ledger.
Import Store Routes.

(** The columns that no statement of the application writes once the row
    is inserted. *)
Definition same_identity (r r' : checkin_row) : Prop :=
  id r' = id r /\ user_id r' = user_id r /\
  checkin_date r' = checkin_date r /\ checkin_time r' = checkin_time r /\
  created_at r' = created_at r.

(** Transition requests for one record, one after the other, each with
    its instant and its target. *)
Definition transitions (checkinId : Z) (steps : list (instant * string))
  : list request :=
  (fun step => PUT_employee_checkins step.1 checkinId (js_string step.2))
    <$> steps.

End Ledger.

(** ** The users table *)

Module Users.

(** The columns of [users] that the statements modelled here read. *)
Record user_row : Type := UserRow {
  id : Z;
  employee_id : option string;
  email : string;
  first_name : string;
  last_name : string;
  employee_status : string
}.

(** [name VARCHAR(200) GENERATED ALWAYS AS (first_name || ' ' || last_name)] *)
Definition name (u : user_row) : string :=
  first_name u +:+ " " +:+ last_name u.

End Users.

(** ** Pagination links *)

Module Pagination.

Record link : Type := Link {
  url : option string;
  label : string;
  active : bool
}.

(** The text of an integer in a template literal or by [toString()]:
    its decimal digits (for magnitudes below 10^21). *)
Definition number_text (n : Z) : string :=
  NilZero.string_of_int (Z.to_int n).

(** [`${baseUrl}?page=${i}`] *)
Definition page_url (baseUrl : string) (i : Z) : string :=
  baseUrl +:+ "?page=" +:+ number_text i.

(** [generatePaginationLinks(currentPage, totalPages, baseUrl)], for
    integer page numbers: the previous link, one link per page from 1 to
    [totalPages], and the next link. *)
Definition generatePaginationLinks (currentPage totalPages : Z)
    (baseUrl : string) : list link :=
  [{| url := if bool_decide (currentPage > 1)
             then Some (page_url baseUrl (currentPage - 1)) else None;
      label := "&laquo; Previous";
      active := false |}]
  ++ ((fun i => {| url := Some (page_url baseUrl i);
                   label := number_text i;
                   active := bool_decide (i = currentPage) |})
        <$> seqZ 1 totalPages)
  ++ [{| url := if bool_decide (currentPage < totalPages)
                then Some (page_url baseUrl (currentPage + 1)) else None;
         label := "Next &raquo;";
         active := false |}].

End Pagination.

(** ** The paginated list of check-ins *)

Module CheckinList.
Import Store.

(** The twelve columns selected by [GET /employee-checkins]. *)
Record row : Type := Row {
  id : Z;
  user_id : Z;
  employee : string;
  checkin_date : Z;
  checkin_time : Z;
  checkout_time : option Z;
  status : string;
  on_break : bool;
  total_working_hours : string;
  total_break_hours : string;
  total_daily_hours : string;
  created_at : Z
}.

Record meta : Type := Meta {
  current_page : Z;
  per_page : Z;
  total : Z;
  last_page : Z
}.

(** The answer: 200 with the page and its [meta], or the 500 of the
    [catch]. *)
Inductive answer : Type :=
| page_of_checkins (data : list row) (m : meta)
| internal_server_error.

(** [parseInt(text) || fallback], from the value of [parseInt]: [None] is
    [NaN], which is falsy like 0.  Numbers are modelled by the integers
    they hold; the arithmetic of the handler is exact on them up to 2^53. *)
Definition or_default (parsed : option Z) (fallback : Z) : Z :=
  match parsed with
  | Some n => if bool_decide (n = 0) then fallback else n
  | None => fallback
  end.

(** [WHERE 1=1], with [AND ec.user_id = $1] when [req.query.user_id] is
    a non-empty text; it is the text of the integer given here.  The
    column is a [BIGINT] and so is the parameter: no row matches a number
    outside its range (a statement with such a parameter is refused, see
    [get_employee_checkins]). *)
Definition where_clause (userId : option Z) (r : checkin_row) : Prop :=
  match userId with
  | Some u => is_bigint u /\ Store.user_id r = u
  | None => True
  end.

#[export] Instance where_clause_dec (userId : option Z) (r : checkin_row)
  : Decision (where_clause userId r).
Proof. destruct userId; cbn; apply _. Defined.

(** The count query: the number of rows of [employee_checkins ec] that
    satisfy the [WHERE] clause. *)
Definition count_query (userId : option Z) (d : database) : Z :=
  Z.of_nat (length (filter (where_clause userId) (employee_checkins d))).

(** [FROM employee_checkins ec JOIN users u ON ec.user_id = u.id WHERE ...] *)
Definition joined (users : list Users.user_row) (userId : option Z)
    (d : database) : list (checkin_row * Users.user_row) :=
  r ← filter (where_clause userId) (employee_checkins d);
  u ← filter (fun u => Users.id u = Store.user_id r) users;
  [(r, u)].

(** [ORDER BY ec.checkin_date DESC, ec.checkin_time DESC]: the first pair
    may come before the second. *)
Definition date_time_desc (a b : checkin_row * Users.user_row) : Prop :=
  Store.checkin_date b.1 < Store.checkin_date a.1 \/
  (Store.checkin_date b.1 = Store.checkin_date a.1 /\
   Store.checkin_time b.1 <= Store.checkin_time a.1).

#[export] Instance date_time_desc_dec (a b : checkin_row * Users.user_row)
  : Decision (date_time_desc a b).
Proof. unfold date_time_desc. apply _. Defined.

Definition select_row (ru : checkin_row * Users.user_row) : row :=
  {| id := Store.id ru.1;
     user_id := Store.user_id ru.1;
     employee := Users.name ru.2;
     checkin_date := Store.checkin_date ru.1;
     checkin_time := Store.checkin_time ru.1;
     checkout_time := Store.checkout_time ru.1;
     status := Store.status ru.1;
     on_break := Store.on_break ru.1;
     total_working_hours := Store.total_working_hours ru.1;
     total_break_hours := Store.total_break_hours ru.1;
     total_daily_hours := Store.total_daily_hours ru.1;
     created_at := Store.created_at ru.1 |}.

(** The rows of the data query before [LIMIT] and [OFFSET].  Rows equal
    in date and time come in an order the server is free to choose; the
    model takes the order of a merge sort. *)
Definition ordered (users : list Users.user_row) (userId : option Z)
    (d : database) : list row :=
  select_row <$> merge_sort date_time_desc (joined users userId d).

Definition int8_max : Z := 2 ^ 63 - 1.

(** [LIMIT $n OFFSET $m] with the two numbers as parameters: the statement
    fails when one of them is negative or does not fit [bigint]. *)
Definition limit_offset {A} (limit offset : Z) (l : list A)
  : option (list A) :=
  if bool_decide (0 <= limit <= int8_max /\ 0 <= offset <= int8_max)
  then Some (take (Z.to_nat limit) (drop (Z.to_nat offset) l))
  else None.

(** [Math.ceil(total / perPage)] for a non-zero [perPage]. *)
Definition Math_ceil_div (total perPage : Z) : Z := - ((- total) / perPage).

(** The count query, the first statement of the handler, is refused when
    the [user_id] parameter is not a [BIGINT]. *)
Definition bigint_filter (userId : option Z) : Prop :=
  match userId with
  | Some u => is_bigint u
  | None => True
  end.

#[export] Instance bigint_filter_dec (userId : option Z)
  : Decision (bigint_filter userId).
Proof. destruct userId; cbn; apply _. Defined.

(** [router.get('/employee-checkins', authenticateToken, [...], ...)].
    The validation chains of the route are run but their result is never
    read, so they do not appear.  [page] and [per_page] are the values of
    [parseInt] on the two query parameters. *)
Definition get_employee_checkins (users : list Users.user_row)
    (page per_page userId : option Z) (d : database) : answer :=
  let page := or_default page 1 in
  let perPage := or_default per_page 10 in
  let offset := (page - 1) * perPage in
  if bool_decide (bigint_filter userId)
  then
    let total := count_query userId d in
    match limit_offset perPage offset (ordered users userId d) with
    | None => internal_server_error
    | Some checkins =>
        let totalPages := Math_ceil_div total perPage in
        page_of_checkins checkins
          {| current_page := page;
             per_page := perPage;
             total := total;
             last_page := totalPages |}
    end
  else internal_server_error.

(** The foreign key of [employee_checkins.user_id] and the primary key of
    [users]: every check-in has exactly one user. *)
Definition users_cover (users : list Users.user_row) (d : database) : Prop :=
  Forall (fun r => exists u,
            filter (fun u => Users.id u = Store.user_id r) users = [u])
         (employee_checkins d).

(** [Number.MAX_SAFE_INTEGER]: up to it the numbers of the handler are
    the integers of the model. *)
Definition MAX_SAFE_INTEGER : Z := 2 ^ 53 - 1.

(** Paging values on which the handler computes exactly and which the
    route's validation chains describe from below: a page and a page size
    of at least 1. *)
Definition exact_paging (page perPage : Z) : Prop :=
  1 <= page <= MAX_SAFE_INTEGER /\
  1 <= perPage <= MAX_SAFE_INTEGER /\
  (page - 1) * perPage <= MAX_SAFE_INTEGER.

(** The key of the [ORDER BY] clause. *)
Definition order_key (r : checkin_row) : Z * Z :=
  (Store.checkin_date r, Store.checkin_time r).

(** The data of an answer; nothing for the 500. *)
Definition data_of (a : answer) : list row :=
  match a with
  | page_of_checkins data _ => data
  | internal_server_error => []
  end.

End CheckinList.

(** ** The last check-in date of the employee overview *)

Module Overview.
Import Store History.

(** [(SELECT checkin_date FROM employee_checkins WHERE user_id = u.id
      ORDER BY checkin_date DESC LIMIT 1) as last_checkin_date] *)
Definition last_checkin_date (u_id : Z) (d : database) : option Z :=
  checkin_date <$> head (take 1 (ordered_rows_of u_id d)).

End Overview.

(** ** The access gate *)

Module Auth.

(** [s.split(sep)] for a separator of one character. *)
Fixpoint split (sep : Stdlib.Strings.Ascii.ascii) (s : string) : list string :=
  match s with
  | EmptyString => [EmptyString]
  | String c s' =>
      if decide (c = sep) then EmptyString :: split sep s'
      else match split sep s' with
           | piece :: pieces => String c piece :: pieces
           | [] => [String c EmptyString]
           end
  end.

(** The row [SELECT id, email, employee_status FROM users ...] returns. *)
Record authenticated : Type := Authenticated {
  id : Z;
  email : string;
  employee_status : string
}.

Definition select_user (u : Users.user_row) : authenticated :=
  {| id := Users.id u;
     email := Users.email u;
     employee_status := Users.employee_status u |}.

(** What the middleware does: call [next()] with [req.user] set, or
    answer with a status and a message. *)
Inductive outcome : Type :=
| next (user : authenticated)
| answered (status_code : Z) (message : string).

(** [authHeader && authHeader.split(' ')[1]], as far as [!token] and
    [jwt.verify] can tell: a token, or something falsy. *)
Definition token_of (authHeader : option string) : option string :=
  match authHeader with
  | None => None
  | Some header =>
      if bool_decide (header = EmptyString) then None
      else match split Stdlib.Strings.Ascii.Space header !! 1%nat with
           | Some token =>
               if bool_decide (token = EmptyString) then None else Some token
           | None => None
           end
  end.

Section Middleware.

(** [jwt.verify(token, process.env.JWT_SECRET)]: it throws ([None]) or
    returns the payload, of which the middleware reads [userId]; an absent
    [userId] is [Some None] and reaches the server as [NULL]. *)
Variable jwt_verify : string -> option (option Z).

(** [SELECT id, email, employee_status FROM users
     WHERE id = $1 AND employee_status = $2] *)
Definition select_active (users : list Users.user_row) (userId : option Z)
    (status : string) : list authenticated :=
  select_user
    <$> filter (fun u => Some (Users.id u) = userId /\
                         Users.employee_status u = status) users.

(** [authenticateToken], in its version for PostgreSQL. *)
Definition authenticateToken (users : list Users.user_row)
    (authHeader : option string) : outcome :=
  match token_of authHeader with
  | None => answered 401 "Access token required"
  | Some token =>
      match jwt_verify token with
      | None => answered 403 "Invalid token"
      | Some decoded_userId =>
          match select_active users decoded_userId "active" with
          | [] => answered 401 "Invalid token or user deactivated"
          | user :: _ => next user
          end
      end
  end.

End Middleware.

End Auth.

(** ** Guarded routes *)

Module Guarded.
Import Routes.

(** [router.METHOD(path, authenticateToken, handler)]: the handler runs
    for [req.user.id] when the middleware calls [next()], and not at all
    when the middleware answers. *)
Definition guarded (jwt_verify : string -> option (option Z))
    (users : list Users.user_row) (authHeader : option string)
    (handler : Z -> server -> response * server)
  : server -> response * server :=
  fun s =>
    match Auth.authenticateToken jwt_verify users authHeader with
    | Auth.next user => handler (Auth.id user) s
    | Auth.answered code text =>
        ({| status_code := code; message := Some text; body := None |}, s)
    end.

End Guarded.

(** ** Employee numbers *)

From Stdlib Require HexadecimalString DecimalPos.

Module EmployeeId.

(** A number of the handler: [NaN], an integer up to
    [Number.MAX_SAFE_INTEGER] in magnitude, or a number beyond, which the
    model does not follow. *)
Inductive number : Type :=
| NaN
| Int (n : Z)
| beyond_safe.

Definition safe (n : Z) : number :=
  if bool_decide (- CheckinList.MAX_SAFE_INTEGER <= n
                  <= CheckinList.MAX_SAFE_INTEGER)
  then Int n else beyond_safe.

(** A text from the bytes of its UTF-8 encoding. *)
Definition text_of_bytes (codes : list nat) : string :=
  String.string_of_list_ascii (Stdlib.Strings.Ascii.ascii_of_nat <$> codes).

(** The white space and line terminators that [parseInt] skips: TAB, LF,
    VT, FF, CR, SP, U+00A0, U+1680, U+2000 to U+200A, U+2028, U+2029,
    U+202F, U+205F, U+3000 and U+FEFF. *)
Definition white_space : list string :=
  text_of_bytes
    <$> [[9]; [10]; [11]; [12]; [13]; [32]; [194; 160]; [225; 154; 128];
         [226; 128; 128]; [226; 128; 129]; [226; 128; 130]; [226; 128; 131];
         [226; 128; 132]; [226; 128; 133]; [226; 128; 134]; [226; 128; 135];
         [226; 128; 136]; [226; 128; 137]; [226; 128; 138]; [226; 128; 168];
         [226; 128; 169]; [226; 128; 175]; [226; 129; 159]; [227; 128; 128];
         [239; 187; 191]]%nat.

(** [s] without its first [n] characters. *)
Definition drop_text (n : nat) (s : string) : string :=
  String.substring n (String.length s - n) s.

Fixpoint trim_start_fuel (fuel : nat) (s : string) : string :=
  match fuel with
  | O => s
  | S fuel =>
      match List.find (fun w => String.prefix w s) white_space with
      | Some w => trim_start_fuel fuel (drop_text (String.length w) s)
      | None => s
      end
  end.

(** [s] without its leading white space. *)
Definition trim_start (s : string) : string :=
  trim_start_fuel (String.length s) s.

Fixpoint take_while (p : Stdlib.Strings.Ascii.ascii -> bool) (s : string)
  : string :=
  match s with
  | String c s' => if p c then String c (take_while p s') else EmptyString
  | EmptyString => EmptyString
  end.

Definition is_decimal_digit (c : Stdlib.Strings.Ascii.ascii) : bool :=
  bool_decide (is_Some (DecimalString.uint_of_char c (Some Decimal.Nil))).

(** The letters [A] to [F] in lower case; any other character as it is. *)
Definition lower_hex (c : Stdlib.Strings.Ascii.ascii)
  : Stdlib.Strings.Ascii.ascii :=
  let code := Stdlib.Strings.Ascii.nat_of_ascii c in
  if bool_decide (65 <= code <= 70)%nat
  then Stdlib.Strings.Ascii.ascii_of_nat (code + 32) else c.

Definition is_hex_digit (c : Stdlib.Strings.Ascii.ascii) : bool :=
  bool_decide
    (is_Some (HexadecimalString.uint_of_char (lower_hex c)
                                             (Some Hexadecimal.Nil))).

Fixpoint map_text (f : Stdlib.Strings.Ascii.ascii -> Stdlib.Strings.Ascii.ascii)
    (s : string) : string :=
  match s with
  | String c s' => String (f c) (map_text f s')
  | EmptyString => EmptyString
  end.

(** The integer written by the longest run of digits at the head of [s],
    if that run is not empty. *)
Definition decimal_value (s : string) : option Z :=
  let digits := take_while is_decimal_digit s in
  if bool_decide (digits = EmptyString) then None
  else Z.of_uint <$> DecimalString.NilEmpty.uint_of_string digits.

Definition hex_value (s : string) : option Z :=
  let digits := take_while is_hex_digit s in
  if bool_decide (digits = EmptyString) then None
  else Z.of_hex_uint
         <$> HexadecimalString.NilEmpty.uint_of_string
               (map_text lower_hex digits).

(** [parseInt(text)] without a radix: white space, a sign, [0x] or [0X]
    for base 16, then the digits. *)
Definition parseInt (text : string) : number :=
  let s := trim_start text in
  let negative := String.prefix "-" s in
  let s := if String.prefix "-" s || String.prefix "+" s
           then drop_text 1 s else s in
  let value := if String.prefix "0x" s || String.prefix "0X" s
               then hex_value (drop_text 2 s)
               else decimal_value s in
  match value with
  | None => NaN
  | Some v => safe (if negative then - v else v)
  end.

(** [s.replace(pattern, by)] for a text pattern: its first occurrence. *)
Definition replace (pattern by_ s : string) : string :=
  match String.index 0 pattern s with
  | None => s
  | Some i =>
      String.substring 0 i s +:+ by_ +:+ drop_text (i + String.length pattern) s
  end.

(** [lastNumber + 1] *)
Definition plus_one (n : number) : number :=
  match n with
  | Int z => safe (z + 1)
  | NaN => NaN
  | beyond_safe => beyond_safe
  end.

(** [n.toString()], where the model follows. *)
Definition toString (n : number) : option string :=
  match n with
  | Int z => Some (Pagination.number_text z)
  | NaN => Some "NaN"
  | beyond_safe => None
  end.

(** [s.padStart(len, fill)]: pads on the left, and never shortens. *)
Definition padStart (s : string) (len : nat) (fill : string) : string :=
  if (len <=? String.length s)%nat then s
  else TimeFormatter.fill_text fill (len - String.length s) +:+ s.

(** [`EMP${n.toString().padStart(3, '0')}`] *)
Definition employee_id_text (n : Z) : string :=
  "EMP" +:+ padStart (Pagination.number_text n) 3 "0".

(** The number and the id that [POST /employees] computes from the rows of
    [SELECT employee_id FROM users ORDER BY id DESC LIMIT 1]. *)
Definition next_number (lastEmployee : list (option string)) : number :=
  match lastEmployee with
  | Some employee_id :: _ =>
      if bool_decide (employee_id = EmptyString) then Int 1
      else plus_one (parseInt (replace "EMP" EmptyString employee_id))
  | _ => Int 1
  end.

Definition next_employee_id (lastEmployee : list (option string))
  : option string :=
  (fun text => "EMP" +:+ padStart text 3 "0")
    <$> toString (next_number lastEmployee).

(** [ORDER BY id DESC] *)
Definition id_desc (u v : Users.user_row) : Prop := Users.id v <= Users.id u.

#[export] Instance id_desc_dec (u v : Users.user_row)
  : Decision (id_desc u v) := Z_le_dec _ _.

Definition select_last_employee_id (users : list Users.user_row)
  : list (option string) :=
  Users.employee_id <$> take 1 (merge_sort id_desc users).

(** The employee id that [POST /employees] gives the new employee. *)
Definition generate_employee_id (users : list Users.user_row)
  : option string :=
  next_employee_id (select_last_employee_id users).

End EmployeeId.

(** ** Some staff *)

Module Staff.
Import Store Routes Invariants.

(** An active employee and a deactivated one. *)
Definition staff : list Users.user_row :=
  [{| Users.id := 7; Users.employee_id := Some "EMP007";
      Users.email := "ann@kistr.com";
      Users.first_name := "Ann"; Users.last_name := "Lee";
      Users.employee_status := "active" |};
   {| Users.id := 8; Users.employee_id := Some "EMP008";
      Users.email := "bob@kistr.com";
      Users.first_name := "Bob"; Users.last_name := "Ray";
      Users.employee_status := "inactive" |}].

(** Employee 7 has checked in on the days 1, 2 and 3. *)
Definition three_days : server := run (daily_checkins 7 3) started.

(** A verification that accepts two tokens, one for each of them. *)
Definition two_tokens (token : string) : option (option Z) :=
  if bool_decide (token = "ann") then Some (Some 7)
  else if bool_decide (token = "bob") then Some (Some 8)
  else None.

End Staff.

Import TimeFormatter Store History Routes Invariants Scenarios.

(** ** The time formatter *)

Lemma roundtrip_below_spec (bound m : Z) :
  roundtrip_below bound = true -> 0 <= m < bound ->
  parse_hhmm (hours_text m) = Some m.
Proof.
  unfold roundtrip_below. rewrite forallb_forall. intros Hall Hm.
  eapply bool_decide_eq_true_1, Hall, list_elem_of_In, elem_of_seqZ. lia.
Qed.

(** C5, as the code has it.  For every minute count [m] with
    [0 <= m < 6000], the text of the generated hours columns for [m], read
    back as hours times 60 plus minutes, is [m].  (From 6000 minutes on the
    hour count has three digits and [LPAD(.., 2, '0')] keeps two.) *)
Theorem hours_text_roundtrip (m : Z) :
  0 <= m < 6000 -> parse_hhmm (hours_text m) = Some m.
Proof. apply roundtrip_below_spec. by vm_compute. Qed.

Lemma hours_text_roundtrip_witness :
  0 <= 510 < 6000 /\ parse_hhmm (hours_text 510) = Some 510.
Proof. split; [lia | apply (hours_text_roundtrip 510); lia]. Defined.

(** C5, as the spec states it, fails at [m = 6000]: the column reads
    ["10:00"], which parses to 600. *)
Lemma hours_text_roundtrip_fails :
  ~ (forall m : Z, 0 <= m < 10000 -> parse_hhmm (hours_text m) = Some m).
Proof.
  intros H. specialize (H 6000 ltac:(lia)). vm_compute in H. discriminate H.
Qed.

Example hours_text_6000 :
  hours_text 6000 = "10:00" /\ parse_hhmm (hours_text 6000) = Some 600.
Proof. by vm_compute. Qed.

(** No reading of the text can do better: 600 and 6000 minutes have the
    same text. *)
Lemma hours_text_not_injective :
  hours_text 600 = hours_text 6000 /\
  ~ (exists parse : string -> option Z,
       forall m : Z, 0 <= m < 10000 -> parse (hours_text m) = Some m).
Proof.
  split; [by vm_compute|]. intros [parse Hparse].
  pose proof (Hparse 600 ltac:(lia)) as H1.
  pose proof (Hparse 6000 ltac:(lia)) as H2.
  vm_compute in H1, H2. congruence.
Qed.

(** ** What the handlers do to the server *)

Lemma substring_all (s : string) : String.substring 0 (String.length s) s = s.
Proof. induction s as [|c s IH]; [done|]. cbn. by rewrite IH. Qed.

Lemma drop_characters_short (n : nat) (s : string) :
  (String.length s <= n)%nat -> drop_characters n s = EmptyString.
Proof.
  revert n. induction s as [|c s IH]; intros n Hn; [done|].
  cbn in Hn |- *. destruct (continues c); [apply IH; lia|].
  destruct n as [|n]; [lia|]. apply IH. lia.
Qed.

(** A text of at most [n] bytes goes into a [VARCHAR(n)] as it is. *)
Lemma varchar_short (n : nat) (s : string) :
  (String.length s <= n)%nat -> varchar n s = inr s.
Proof.
  intros Hn. unfold varchar. rewrite drop_characters_short by done.
  cbn. by rewrite Nat.sub_0_r, substring_all.
Qed.

Lemma status_short (ty : string) :
  ty ∈ ["checkin"; "break"; "checkout"] -> (String.length ty <= 8)%nat.
Proof.
  rewrite !elem_of_cons.
  intros [->| [->| [->| Hin]]]; cbn; try lia. by apply not_elem_of_nil in Hin.
Qed.

Section Handlers.
Variables (now : instant) (s : server).

Let clk : clock := pg_clock now.
Let rows : list checkin_row := employee_checkins (db s).

Lemma update_checkin_status_set (p_checkin_id : Z) (p_new_status : string) :
  (String.length p_new_status <= 20)%nat ->
  update_checkin_status clk p_checkin_id p_new_status
  = update_where_id clk (transition_set clk p_new_status) p_checkin_id.
Proof.
  intros Hfits. unfold update_checkin_status, transition_set.
  case_bool_decide; [done|]. by rewrite varchar_short.
Qed.

Lemma transition_set_status (p_new_status : string) (r : checkin_row) :
  status (transition_set clk p_new_status r) = p_new_status.
Proof. unfold transition_set. by case_bool_decide. Qed.

Lemma transition_set_on_break (p_new_status : string) (r : checkin_row) :
  on_break (transition_set clk p_new_status r)
  = bool_decide (p_new_status = "break").
Proof.
  unfold transition_set. case_bool_decide as Hout; [|done].
  subst p_new_status. done.
Qed.

Lemma update_where_id_checked (set : checkin_row -> checkin_row)
    (p_checkin_id : Z) (d : database) :
  (forall r, status_check (set r) = true) ->
  update_where_id clk set p_checkin_id d
  = (inr tt,
     {| employee_checkins :=
          update_row clk set p_checkin_id <$> employee_checkins d;
        employee_checkins_id_seq := employee_checkins_id_seq d |}).
Proof.
  intros Hset. unfold update_where_id.
  rewrite (proj2 (forallb_forall _ _)); [done|].
  intros r _. rewrite Hset. apply orb_true_r.
Qed.

(** A request with an unrecognised [type] is answered before any
    statement is sent. *)
Lemma put_invalid (checkinId : Z) (type : js_value) :
  includes ["break"; "checkin"; "checkout"] type = false ->
  put_employee_checkins now checkinId type s
  = ({| status_code := 400;
        message := Some "Invalid status type";
        body := None |}, s).
Proof.
  intros Hno. unfold put_employee_checkins, try_catch. by rewrite Hno.
Qed.

Lemma includes_text (type : js_value) :
  includes ["break"; "checkin"; "checkout"] type = true ->
  text_param type ∈ ["checkin"; "break"; "checkout"].
Proof.
  intros Hyes. destruct type; try discriminate Hyes. cbn in Hyes |- *.
  apply bool_decide_eq_true_1 in Hyes.
  rewrite !elem_of_cons in Hyes |- *. tauto.
Qed.

(** A request with a recognised [type] and an identifier that is not a
    [BIGINT] sends one statement, which the server refuses; the answer is
    500 and the database is as before. *)
Lemma put_out_of_range (checkinId : Z) (type : js_value) :
  includes ["break"; "checkin"; "checkout"] type = true ->
  ~ is_bigint checkinId ->
  put_employee_checkins now checkinId type s
  = ({| status_code := 500;
        message := Some "Internal server error";
        body := None |},
     {| db := db s;
        received :=
          received s
          ++ [SELECT_update_checkin_status checkinId (text_param type)] |}).
Proof.
  intros Hyes Hout. unfold put_employee_checkins, try_catch. rewrite Hyes.
  cbn [negb]. unfold mbind, io_bind, query_call, bigint_param.
  by rewrite bool_decide_eq_false_2.
Qed.

(** A request with a recognised [type] and an identifier that is a
    [BIGINT] sends one statement, which rewrites the rows with the given
    [id], and is answered 200. *)
Lemma put_valid (checkinId : Z) (type : js_value) :
  includes ["break"; "checkin"; "checkout"] type = true ->
  is_bigint checkinId ->
  put_employee_checkins now checkinId type s
  = ({| status_code := 200;
        message := Some (transition_message (text_param type));
        body := None |},
     {| db :=
          {| employee_checkins :=
               update_row clk (transition_set clk (text_param type))
                          checkinId <$> rows;
             employee_checkins_id_seq := employee_checkins_id_seq (db s) |};
        received :=
          received s
          ++ [SELECT_update_checkin_status checkinId (text_param type)] |}).
Proof.
  intros Hyes Hid. pose proof (includes_text type Hyes) as Hty.
  unfold put_employee_checkins, try_catch. rewrite Hyes.
  cbn [negb]. unfold mbind, io_bind, query_call, bigint_param.
  rewrite bool_decide_eq_true_2 by done.
  rewrite update_checkin_status_set by (apply status_short in Hty; lia).
  rewrite update_where_id_checked; [done|].
  intros r. unfold status_check. rewrite transition_set_status.
  by apply bool_decide_eq_true_2.
Qed.

(** A transition request leaves the database as it is or rewrites the
    rows with the given [id]. *)
Lemma put_cases (checkinId : Z) (type : js_value) :
  db (put_employee_checkins now checkinId type s).2 = db s \/
  (includes ["break"; "checkin"; "checkout"] type = true /\
   is_bigint checkinId /\
   put_employee_checkins now checkinId type s
   = ({| status_code := 200;
         message := Some (transition_message (text_param type));
         body := None |},
      {| db :=
           {| employee_checkins :=
                update_row clk (transition_set clk (text_param type))
                           checkinId <$> rows;
              employee_checkins_id_seq := employee_checkins_id_seq (db s) |};
         received :=
           received s
           ++ [SELECT_update_checkin_status checkinId (text_param type)] |})).
Proof.
  destruct (includes ["break"; "checkin"; "checkout"] type) eqn:Hinc.
  2:{ left. by rewrite put_invalid. }
  destruct (decide (is_bigint checkinId)) as [Hid|Hid].
  2:{ left. by rewrite put_out_of_range. }
  right. split; [done|]. split; [done|]. by apply put_valid.
Qed.

(** The handler of [POST] when the employee has a row for [today]. *)
Lemma post_conflict (userId : Z) :
  checkins_on userId (toISOString_date now) s <> [] ->
  post_employee_checkins now userId s
  = ({| status_code := 400;
        message := Some "You have already checked in today";
        body := None |},
     {| db := db s;
        received :=
          received s
          ++ [SELECT_existing_checkin userId (toISOString_date now)] |}).
Proof.
  intros Hsome. unfold post_employee_checkins, try_catch.
  unfold mbind, io_bind, query_read, select_existing_checkin.
  rewrite bool_decide_eq_true_2; [done|].
  rewrite length_fmap. unfold checkins_on in Hsome.
  destruct (filter _ _); [done | cbn; lia].
Qed.

(** The handler of [POST] when the insert goes through. *)
Lemma post_created (userId : Z) :
  checkins_on userId (toISOString_date now) s = [] ->
  Forall (fun r => id r < employee_checkins_id_seq (db s)) rows ->
  checkins_on userId (CURRENT_DATE clk) s = [] ->
  post_employee_checkins now userId s
  = ({| status_code := 201;
        message := Some "Check-in successful";
        body := Some (checkin_created (employee_checkins_id_seq (db s))
                                      (toISOString_date now)
                                      (toTimeString_time now)) |},
     {| db :=
          {| employee_checkins :=
               rows ++ [new_checkin clk (employee_checkins_id_seq (db s))
                                    userId];
             employee_checkins_id_seq :=
               employee_checkins_id_seq (db s) + 1 |};
        received :=
          received s
          ++ [SELECT_existing_checkin userId (toISOString_date now)]
          ++ [SELECT_create_checkin userId] |}).
Proof.
  intros Hnone Hseq Hfree. unfold post_employee_checkins, try_catch.
  unfold mbind, io_bind, query_read, select_existing_checkin.
  unfold checkins_on in Hnone. rewrite Hnone. cbn [fmap list_fmap length].
  rewrite bool_decide_eq_false_2 by lia.
  unfold query_call, create_checkin. cbn [db received].
  rewrite bool_decide_eq_false_2.
  2:{ rewrite Exists_exists. intros (r & Hr & Hid).
      rewrite Forall_forall in Hseq. specialize (Hseq r Hr). lia. }
  rewrite bool_decide_eq_false_2.
  2:{ rewrite Exists_exists. intros (r & Hr & Hkey).
      assert (r ∈ checkins_on userId (CURRENT_DATE clk) s) as Hin
        by (apply list_elem_of_filter; done).
      rewrite Hfree in Hin. by apply not_elem_of_nil in Hin. }
  rewrite bool_decide_eq_true_2 by left.
  by rewrite <- (assoc_L (++)).
Qed.

End Handlers.

(** ** The table stays consistent *)

Lemma update_row_keys (clk : clock) (ty : string) (p : Z) (r : checkin_row) :
  id (update_row clk (transition_set clk ty) p r) = id r /\
  day_key (update_row clk (transition_set clk ty) p r) = day_key r.
Proof.
  unfold update_row, transition_set, day_key.
  repeat case_bool_decide; done.
Qed.

Lemma update_row_other (clk : clock) (set : checkin_row -> checkin_row)
    (p : Z) (r : checkin_row) :
  id r <> p -> update_row clk set p r = r.
Proof. intros Hne. unfold update_row. by rewrite bool_decide_eq_false_2. Qed.

Lemma update_row_status (clk : clock) (ty : string) (p : Z) (r : checkin_row) :
  id r = p ->
  status (update_row clk (transition_set clk ty) p r) = ty /\
  on_break (update_row clk (transition_set clk ty) p r)
  = bool_decide (ty = "break").
Proof.
  intros Hid. unfold update_row. rewrite bool_decide_eq_true_2 by done.
  unfold transition_set. case_bool_decide as Hout; [|done].
  subst ty. done.
Qed.

Lemma update_rows_fmap {A} (f : checkin_row -> A) (clk : clock) (ty : string)
    (p : Z) (rows : list checkin_row) :
  (forall r, f (update_row clk (transition_set clk ty) p r) = f r) ->
  f <$> (update_row clk (transition_set clk ty) p <$> rows) = f <$> rows.
Proof.
  intros Hf. rewrite <- list_fmap_compose. apply list_fmap_ext.
  intros _ r _. apply Hf.
Qed.

Lemma consistent_started : consistent (db started).
Proof. split; cbn; constructor. Qed.

Lemma consistent_put (now : instant) (checkinId : Z) (type : js_value)
    (s : server) :
  consistent (db s) ->
  consistent (db (put_employee_checkins now checkinId type s).2).
Proof.
  intros Hd.
  destruct (put_cases now s checkinId type) as [->|(Hty & _ & ->)]; [done|].
  apply includes_text in Hty.
  destruct Hd as [Hpk Hseq Hday Hchk Hbrk]. cbn [snd db].
  split; cbn [employee_checkins employee_checkins_id_seq].
  - rewrite update_rows_fmap; [done|]. intros r. apply update_row_keys.
  - rewrite Forall_fmap. eapply Forall_impl; [exact Hseq|].
    intros r Hr. cbn. by rewrite (proj1 (update_row_keys _ _ _ _)).
  - rewrite update_rows_fmap; [done|]. intros r. apply update_row_keys.
  - rewrite Forall_fmap. eapply Forall_impl; [exact Hchk|].
    intros r Hr. cbn. destruct (decide (id r = checkinId)) as [Hid|Hid].
    + unfold status_check.
      rewrite (proj1 (update_row_status _ _ _ _ Hid)).
      by apply bool_decide_eq_true_2.
    + by rewrite update_row_other.
  - rewrite Forall_fmap. eapply Forall_impl; [exact Hbrk|].
    intros r Hr. cbn. destruct (decide (id r = checkinId)) as [Hid|Hid].
    + unfold on_break_iff_break.
      destruct (update_row_status (pg_clock now) (text_param type) _ _ Hid)
        as [-> ->]. done.
    + by rewrite update_row_other.
Qed.

(** What [POST] can do to the table: nothing, or append the new row. *)
Lemma post_table (now : instant) (userId : Z) (s : server) :
  let d := db s in
  let d' := db (post_employee_checkins now userId s).2 in
  let row := new_checkin (pg_clock now) (employee_checkins_id_seq d) userId in
  (employee_checkins d' = employee_checkins d /\
   employee_checkins_id_seq d <= employee_checkins_id_seq d' /\
   (post_employee_checkins now userId s).1.(status_code) <> 201)
  \/
  (employee_checkins d' = employee_checkins d ++ [row] /\
   employee_checkins_id_seq d' = employee_checkins_id_seq d + 1 /\
   (post_employee_checkins now userId s).1.(status_code) = 201 /\
   Forall (fun r => id r <> id row) (employee_checkins d) /\
   Forall (fun r => day_key r <> day_key row) (employee_checkins d)).
Proof.
  cbn zeta. unfold post_employee_checkins, try_catch.
  unfold mbind, io_bind, query_read. case_bool_decide as Hex.
  { left. cbn. split_and!; [done | lia | done]. }
  unfold query_call, create_checkin. cbn [db received].
  case_bool_decide as Hpk.
  { left. cbn. split_and!; [done | lia | done]. }
  case_bool_decide as Hkey.
  { left. cbn. split_and!; [done | lia | done]. }
  rewrite bool_decide_eq_true_2 by left.
  right. cbn. split_and!; try done.
  - apply Forall_forall. intros r Hr Hid. apply Hpk, Exists_exists. eauto.
  - apply Forall_forall. intros r Hr Heq. apply Hkey, Exists_exists.
    exists r. split; [done|]. unfold day_key in Heq. cbn in Heq.
    by injection Heq.
Qed.

Lemma consistent_post (now : instant) (userId : Z) (s : server) :
  consistent (db s) ->
  consistent (db (post_employee_checkins now userId s).2).
Proof.
  intros [Hpk Hseq Hday Hchk Hbrk].
  destruct (post_table now userId s) as [(Hrows & Hle & _)|
                                         (Hrows & Hnext & _ & Hid & Hkey)].
  - split; rewrite Hrows; try done.
    eapply Forall_impl; [exact Hseq|]. cbn. intros r Hr. lia.
  - split; rewrite Hrows, ?Hnext.
    + rewrite fmap_app. apply NoDup_app. split_and!; [done| |].
      * intros x Hx Hin. cbn in Hin. apply list_elem_of_singleton in Hin.
        apply list_elem_of_fmap in Hx as (r & -> & Hr).
        rewrite Forall_forall in Hid. by apply (Hid r Hr).
      * cbn. apply NoDup_singleton.
    + apply Forall_app. split.
      * eapply Forall_impl; [exact Hseq|]. cbn. intros r Hr. lia.
      * apply Forall_singleton. cbn. lia.
    + rewrite fmap_app. apply NoDup_app. split_and!; [done| |].
      * intros x Hx Hin. cbn in Hin. apply list_elem_of_singleton in Hin.
        apply list_elem_of_fmap in Hx as (r & -> & Hr).
        rewrite Forall_forall in Hkey. by apply (Hkey r Hr).
      * cbn. apply NoDup_singleton.
    + apply Forall_app. split; [done|]. by apply Forall_singleton.
    + apply Forall_app. split; [done|]. by apply Forall_singleton.
Qed.

Lemma get_unchanged (userId : Z) (s : server) :
  db (get_employee_checkin userId s).2 = db s.
Proof. done. Qed.

Lemma consistent_handle (rq : request) (s : server) :
  consistent (db s) -> consistent (db (handle rq s).2).
Proof.
  destruct rq; cbn [handle].
  - apply consistent_post.
  - apply consistent_put.
  - by rewrite get_unchanged.
Qed.

Lemma reachable_consistent (s : server) : reachable s -> consistent (db s).
Proof.
  induction 1 as [|rq s _ IH].
  - apply consistent_started.
  - by apply consistent_handle.
Qed.

Lemma reachable_run (rqs : list request) (s : server) :
  reachable s -> reachable (run rqs s).
Proof.
  revert s. induction rqs as [|rq rqs IH]; intros s Hs; [done|].
  cbn. apply IH. by constructor.
Qed.

(** ** Validation of the transition target *)

(** C3.  A transition request whose [type] is not one of the strings
    [checkin], [break], [checkout] is answered 400 "Invalid status type";
    no statement has been sent to the database when the answer is given,
    and the database is the one before the request. *)
Theorem unrecognised_type_is_rejected (now : instant) (checkinId : Z)
    (type : js_value) (s : server) :
  type ∉ js_string <$> ["checkin"; "break"; "checkout"] ->
  let '(res, s') := put_employee_checkins now checkinId type s in
  status_code res = 400 /\
  message res = Some "Invalid status type" /\
  received s' = received s /\
  db s' = db s.
Proof.
  intros Hnot. rewrite put_invalid; [done|].
  destruct type; try done. unfold includes. apply bool_decide_eq_false_2.
  intros Hin. apply Hnot. rewrite !fmap_cons, !elem_of_cons.
  rewrite !elem_of_cons in Hin.
  destruct Hin as [->| [->| [->| Hin]]]; auto.
  by apply not_elem_of_nil in Hin.
Qed.

Lemma unrecognised_type_is_rejected_witness :
  let '(res, s') :=
    put_employee_checkins six_pm 1 (js_string "lunch") on_a_break in
  status_code res = 400 /\
  message res = Some "Invalid status type" /\
  received s' = received on_a_break /\
  db s' = db on_a_break.
Proof.
  apply (unrecognised_type_is_rejected six_pm 1 (js_string "lunch")).
  rewrite !fmap_cons, !elem_of_cons.
  intros [H| [H| [H| H]]]; try discriminate H.
  by apply not_elem_of_nil in H.
Defined.

(** ** The break flag *)

(** C7.  In every state the server can reach by handling requests, each
    row of [employee_checkins] has [on_break] true exactly when its
    [status] is [break]. *)
Theorem on_break_iff_status_break (s : server) :
  reachable s ->
  forall r, r ∈ employee_checkins (db s) ->
            on_break r = bool_decide (status r = "break").
Proof.
  intros Hs r Hr. apply reachable_consistent in Hs.
  destruct Hs as [_ _ _ _ Hbrk]. rewrite Forall_forall in Hbrk.
  by apply Hbrk.
Qed.

Lemma on_break_iff_status_break_witness :
  reachable on_a_break /\
  Forall (fun r => on_break r = bool_decide (status r = "break"))
         (employee_checkins (db on_a_break)).
Proof.
  assert (reachable on_a_break) as Hs
    by apply reachable_run, reachable_started.
  split; [exact Hs|]. apply Forall_forall.
  exact (on_break_iff_status_break on_a_break Hs).
Defined.

Example on_a_break_row :
  (fun r => (status r, on_break r)) <$> employee_checkins (db on_a_break)
  = [("break", true)].
Proof. by vm_compute. Qed.

(** ** Opening a day *)

(** C6.  Whatever the state, [POST /employee-checkins] either leaves the
    table as it is, or answers 201 and appends one row: status [checkin],
    no check-out time, not on break, the three minute counters 0, and the
    date and time of the database clock as check-in date and time. *)
Theorem created_checkin_is_fresh (now : instant) (userId : Z) (s : server) :
  let '(res, s') := post_employee_checkins now userId s in
  (status_code res <> 201 /\
   employee_checkins (db s') = employee_checkins (db s))
  \/
  (status_code res = 201 /\
   exists row,
     employee_checkins (db s') = employee_checkins (db s) ++ [row] /\
     user_id row = userId /\
     status row = "checkin" /\
     checkout_time row = None /\
     on_break row = false /\
     total_working_minutes row = 0 /\
     total_break_minutes row = 0 /\
     total_daily_minutes row = 0 /\
     checkin_date row = CURRENT_DATE (pg_clock now) /\
     checkin_time row = CURRENT_TIME (pg_clock now)).
Proof.
  pose proof (post_table now userId s) as H. cbn zeta in H.
  destruct (post_employee_checkins now userId s) as [res s'].
  cbn [fst snd] in H.
  destruct H as [(Hrows & _ & Hcode)|(Hrows & _ & Hcode & _)].
  - by left.
  - right. split; [done|]. eexists. split; [exact Hrows|]. by cbn.
Qed.

Example first_checkin_of_the_day :
  (post_employee_checkins (at_time 100 (time_of_hms 9 0 0)) 7 started).1
  = {| status_code := 201;
       message := Some "Check-in successful";
       body := Some (checkin_created 1 100 (time_of_hms 9 0 0)) |}.
Proof. by vm_compute. Qed.

Lemma checkins_on_at_most_one (userId today : Z) (s : server) :
  NoDup (day_key <$> employee_checkins (db s)) ->
  (length (checkins_on userId today s) <= 1)%nat.
Proof.
  unfold checkins_on. induction (employee_checkins (db s)) as [|r rows IH].
  { cbn. lia. }
  rewrite fmap_cons, NoDup_cons, filter_cons. intros [Hr Hrows].
  specialize (IH Hrows). case_decide as Hkey; [|done].
  destruct (filter _ rows) as [|r' rest] eqn:Hf; [cbn; lia|].
  exfalso. apply Hr. apply list_elem_of_fmap. exists r'.
  assert (r' ∈ filter (fun r => user_id r = userId /\ checkin_date r = today)
                      rows) as Hin by (rewrite Hf; left).
  apply list_elem_of_filter in Hin as [[Hu Hd] Hin].
  split; [|done]. unfold day_key. destruct Hkey as [-> ->]. by rewrite Hu, Hd.
Qed.

(** Where the handler does open the day as it should.  Let the server be
    in a reachable state and [today] the date the handler reads.  If the
    employee has a row for [today], the handler answers 400 "You have
    already checked in today", the table is as before and holds exactly
    one row for the employee and [today].  Otherwise, when the database
    clock is on the same day, it answers 201 and the table is the old one
    followed by one new row, the only one for the employee and [today]. *)
Lemma one_checkin_per_day (now : instant) (userId : Z) (s : server) :
  reachable s ->
  let today := toISOString_date now in
  let '(res, s') := post_employee_checkins now userId s in
  (checkins_on userId today s <> [] ->
   status_code res = 400 /\
   message res = Some "You have already checked in today" /\
   employee_checkins (db s') = employee_checkins (db s) /\
   length (checkins_on userId today s') = 1%nat)
  /\
  (checkins_on userId today s = [] ->
   CURRENT_DATE (pg_clock now) = today ->
   status_code res = 201 /\
   (exists row,
      employee_checkins (db s') = employee_checkins (db s) ++ [row] /\
      user_id row = userId /\ checkin_date row = today) /\
   length (checkins_on userId today s') = 1%nat).
Proof.
  intros Hs today. apply reachable_consistent in Hs.
  destruct Hs as [_ Hseq Hday _ _].
  destruct (post_employee_checkins now userId s) as [res s'] eqn:Hpost.
  split.
  - intros Hsome. rewrite post_conflict in Hpost by done.
    injection Hpost as <- <-. split_and!; try done.
    pose proof (checkins_on_at_most_one userId today s Hday) as Hle.
    unfold checkins_on in *. cbn [db].
    destruct (filter _ _) as [|r [|r' rest]]; cbn in *; [done|done|lia].
  - intros Hnone Hsame. rewrite post_created in Hpost; try done.
    2:{ by rewrite Hsame. }
    injection Hpost as <- <-. split_and!; try done.
    + eexists. split; [done|]. by cbn.
    + unfold checkins_on in *. cbn [db employee_checkins].
      rewrite filter_app, Hnone, filter_cons, filter_nil.
      rewrite decide_True; [done|]. by cbn.
Qed.

Lemma one_checkin_per_day_at_six_pm :
  (let '(res, s') := post_employee_checkins six_pm 7 checked_out in
   status_code res = 400 /\
   message res = Some "You have already checked in today" /\
   employee_checkins (db s') = employee_checkins (db checked_out) /\
   length (checkins_on 7 100 s') = 1%nat)
  /\
  (let '(res, s') := post_employee_checkins six_pm 7 started in
   status_code res = 201 /\
   (exists row,
      employee_checkins (db s') = employee_checkins (db started) ++ [row] /\
      user_id row = 7 /\ checkin_date row = 100) /\
   length (checkins_on 7 100 s') = 1%nat).
Proof.
  split.
  - apply (one_checkin_per_day six_pm 7 checked_out).
    + apply reachable_run, reachable_started.
    + by vm_compute.
  - apply (one_checkin_per_day six_pm 7 started).
    + apply reachable_started.
    + by vm_compute.
    + by vm_compute.
Defined.

Lemma filter_none {A} (P : A -> Prop) `{!forall x, Decision (P x)}
    (l : list A) :
  Forall (fun x => ~ P x) l -> filter P l = [].
Proof.
  induction 1 as [|x l Hx _ IH]; [done|].
  by rewrite filter_cons, decide_False.
Qed.

(** C2, where the code departs from it.  The handler looks for a row of
    the date it reads itself, the UTC date of [toISOString], and the
    insert writes the date of the database session.  When the employee
    has no row for the first date but has one for the second, the check
    lets the request through, the insert breaks the unique key, and the
    answer is 500 "Internal server error" with the table as before: the
    request is neither refused as a second check-in of the day nor does
    it create a row. *)
Theorem checkin_fails_when_the_dates_differ (now : instant) (userId : Z)
    (s : server) :
  Forall (fun r => ~ (user_id r = userId /\
                      checkin_date r = toISOString_date now))
         (employee_checkins (db s)) ->
  Exists (fun r => user_id r = userId /\
                   checkin_date r = CURRENT_DATE (pg_clock now))
         (employee_checkins (db s)) ->
  let '(res, s') := post_employee_checkins now userId s in
  status_code res = 500 /\
  message res = Some "Internal server error" /\
  body res = None /\
  employee_checkins (db s') = employee_checkins (db s).
Proof.
  intros Hnone Hsome. unfold post_employee_checkins, try_catch.
  unfold mbind, io_bind, query_read, select_existing_checkin.
  assert (filter (fun r => user_id r = userId /\
                           checkin_date r = toISOString_date now)
                 (employee_checkins (db s)) = []) as ->.
  { by apply filter_none. }
  cbn [fmap list_fmap length]. rewrite bool_decide_eq_false_2 by lia.
  unfold query_call, create_checkin. cbn [db received].
  case_bool_decide; [done|]. by rewrite bool_decide_eq_true_2.
Qed.

(** The second check-in of a day, a quarter of an hour after the first,
    in the small hours of a session five hours east of UTC. *)
Lemma checkin_fails_when_the_dates_differ_witness :
  reachable checked_in_after_midnight /\
  (user_id <$> employee_checkins (db checked_in_after_midnight)) = [7] /\
  let '(res, s') :=
    post_employee_checkins (small_hours (time_of_hms 0 45 0)) 7
                           checked_in_after_midnight in
  status_code res = 500 /\
  message res = Some "Internal server error" /\
  body res = None /\
  employee_checkins (db s') = employee_checkins (db checked_in_after_midnight).
Proof.
  split; [apply reachable_run, reachable_started|]. split; [done|].
  apply (checkin_fails_when_the_dates_differ
           (small_hours (time_of_hms 0 45 0)) 7 checked_in_after_midnight).
  - repeat constructor. vm_compute. intros [_ H]. discriminate H.
  - constructor. by vm_compute.
Defined.

(** The first check-in of that day is answered with the date of the day
    before, which is not the date of the row it has created. *)
Example checkin_in_the_small_hours :
  let '(res, s') :=
    post_employee_checkins (small_hours (time_of_hms 0 30 0)) 7 started in
  res = {| status_code := 201;
           message := Some "Check-in successful";
           body := Some (checkin_created 1 99 (time_of_hms 0 30 0)) |} /\
  checkin_date <$> employee_checkins (db s') = [100].
Proof. by vm_compute. Qed.

(** When the handler's date is a day behind the database's, the row of
    the database's day is not seen by the check and the insert fails on
    the unique key: the answer is 500 and the table is as before. *)
Example checkin_across_midnight :
  let now := {| toISOString_date := 99;
                toTimeString_time := time_of_hms 23 30 0;
                pg_clock := pg_clock six_pm |} in
  let '(res, s') := post_employee_checkins now 7 checked_out in
  status_code res = 500 /\
  employee_checkins (db s') = employee_checkins (db checked_out).
Proof. by vm_compute. Qed.

(** ** Applying a transition *)

Lemma find_checkin_update (clk : clock) (ty : string) (p : Z)
    (rows : list checkin_row) :
  head (filter (fun r => id r = p)
               (update_row clk (transition_set clk ty) p <$> rows))
  = update_row clk (transition_set clk ty) p
      <$> head (filter (fun r => id r = p) rows).
Proof.
  induction rows as [|r rows IH]; [done|].
  rewrite fmap_cons, !filter_cons.
  rewrite (proj1 (update_row_keys clk ty p r)).
  case_decide; [done | exact IH].
Qed.

Lemma find_checkin_put (now : instant) (checkinId : Z) (type : js_value)
    (s : server) :
  includes ["break"; "checkin"; "checkout"] type = true ->
  find_checkin checkinId (put_employee_checkins now checkinId type s).2
  = update_row (pg_clock now)
               (transition_set (pg_clock now) (text_param type)) checkinId
      <$> find_checkin checkinId s.
Proof.
  intros Hinc. unfold find_checkin.
  destruct (decide (is_bigint checkinId)) as [Hid|Hid].
  - rewrite put_valid, !bool_decide_eq_true_2 by done.
    apply find_checkin_update.
  - by rewrite !bool_decide_eq_false_2.
Qed.

Lemma find_checkin_Some (p : Z) (s : server) (r : checkin_row) :
  find_checkin p s = Some r ->
  r ∈ employee_checkins (db s) /\ id r = p /\ is_bigint p.
Proof.
  unfold find_checkin. case_bool_decide as Hp; [|done]. intros Hhd.
  assert (r ∈ filter (fun r => id r = p) (employee_checkins (db s))) as Hin.
  { destruct (filter _ _); [done|]. injection Hhd as ->. left. }
  apply list_elem_of_filter in Hin. tauto.
Qed.

Lemma update_rows_other (clk : clock) (set : checkin_row -> checkin_row)
    (p : Z) (rows : list checkin_row) :
  Forall (fun r => id r <> p) rows -> update_row clk set p <$> rows = rows.
Proof.
  induction 1 as [|r rows Hr _ IH]; [done|].
  by rewrite fmap_cons, IH, update_row_other.
Qed.

Lemma includes_string (ty : string) :
  ty ∈ ["checkin"; "break"; "checkout"] ->
  includes ["break"; "checkin"; "checkout"] (js_string ty) = true.
Proof.
  intros Hty. apply bool_decide_eq_true_2.
  rewrite !elem_of_cons in Hty |- *. tauto.
Qed.

(** A transition request with a recognised target rewrites, where it
    stands, every row with the given identifier. *)
Lemma put_place (now : instant) (checkinId : Z) (ty : string) (s : server)
    (i : nat) (r : checkin_row) :
  ty ∈ ["checkin"; "break"; "checkout"] ->
  is_bigint checkinId ->
  employee_checkins (db s) !! i = Some r ->
  id r = checkinId ->
  (put_employee_checkins now checkinId (js_string ty) s).1
  = {| status_code := 200;
       message := Some (transition_message ty);
       body := None |} /\
  employee_checkins
    (db (put_employee_checkins now checkinId (js_string ty) s).2) !! i
  = Some (update_updated_at_column (pg_clock now)
            (transition_set (pg_clock now) ty r)).
Proof.
  intros Hty Hp Hi Hid. apply includes_string in Hty.
  rewrite put_valid by done. split; [done|].
  cbn [snd db employee_checkins text_param].
  rewrite list_lookup_fmap, Hi. cbn. unfold update_row.
  by rewrite bool_decide_eq_true_2.
Qed.

(** C1, as the spec states it, fails: on a reachable state, a transition
    request for an identifier that names no row, or names a row in status
    [checkout], is not always answered with an error leaving status, break
    flag, check-out time and minute counters as they were.  The row of
    [checked_out] is in status [checkout]; the request for a break is
    answered 200 and puts it in status [break]. *)
Lemma checkout_is_not_terminal :
  ~ (forall (now : instant) (checkinId : Z) (type : js_value) (s : server),
       reachable s ->
       (find_checkin checkinId s = None \/
        exists r, find_checkin checkinId s = Some r /\ status r = "checkout") ->
       let '(res, s') := put_employee_checkins now checkinId type s in
       400 <= status_code res /\
       Forall2 same_ledger_state (employee_checkins (db s))
                                 (employee_checkins (db s'))).
Proof.
  intros H.
  specialize (H six_pm 1 (js_string "break") checked_out).
  destruct H as [Hcode _].
  - apply reachable_run, reachable_started.
  - right. eexists. split; [by vm_compute | done].
  - vm_compute in Hcode. by apply Hcode.
Qed.

Example break_after_checkout :
  let '(res, s') :=
    put_employee_checkins six_pm 1 (js_string "break") checked_out in
  (status <$> employee_checkins (db checked_out)) = ["checkout"] /\
  status_code res = 200 /\ message res = Some "Break started" /\
  (status <$> employee_checkins (db s')) = ["break"] /\
  (on_break <$> employee_checkins (db s')) = [true].
Proof. by vm_compute. Qed.

Example transition_of_missing_record :
  let '(res, s') :=
    put_employee_checkins six_pm 5 (js_string "break") checked_out in
  find_checkin 5 checked_out = None /\
  status_code res = 200 /\ message res = Some "Break started" /\
  db s' = db checked_out.
Proof. by vm_compute. Qed.

(** C1, as the code has it.  A transition request with a recognised
    target is answered 200 whenever the identifier is a 64-bit integer,
    whatever it names; for an identifier outside that range the server
    refuses the statement, the answer is 500 and the database is the one
    before the request.  When no row of the table has the identifier, the
    table is the one before the request.  A row that has it and is in
    status [checkout] is rewritten like any other row: it stays where it
    is, its status becomes the target, and its break flag is set exactly
    for the target [break]. *)
Theorem transition_is_unguarded (now : instant) (checkinId : Z)
    (ty : string) (s : server) :
  ty ∈ ["checkin"; "break"; "checkout"] ->
  let '(res, s') := put_employee_checkins now checkinId (js_string ty) s in
  (- 2 ^ 63 <= checkinId < 2 ^ 63 -> status_code res = 200) /\
  (~ - 2 ^ 63 <= checkinId < 2 ^ 63 ->
   status_code res = 500 /\ db s' = db s) /\
  (Forall (fun r => id r <> checkinId) (employee_checkins (db s)) ->
   employee_checkins (db s') = employee_checkins (db s)) /\
  (forall i r,
     employee_checkins (db s) !! i = Some r ->
     id r = checkinId -> - 2 ^ 63 <= checkinId < 2 ^ 63 ->
     status r = "checkout" ->
     exists r', employee_checkins (db s') !! i = Some r' /\
                id r' = checkinId /\
                status r' = ty /\
                on_break r' = bool_decide (ty = "break")).
Proof.
  intros Hty.
  pose proof (put_place now checkinId ty s) as Hplace.
  destruct (put_employee_checkins now checkinId (js_string ty) s)
    as [res s'] eqn:Hput.
  cbn [fst snd] in Hplace.
  assert (forall i r,
            employee_checkins (db s) !! i = Some r ->
            id r = checkinId -> - 2 ^ 63 <= checkinId < 2 ^ 63 ->
            status r = "checkout" ->
            exists r', employee_checkins (db s') !! i = Some r' /\
                       id r' = checkinId /\
                       status r' = ty /\
                       on_break r' = bool_decide (ty = "break")) as Hrow.
  { intros i r Hi Hid Hp _.
    destruct (Hplace i r Hty Hp Hi Hid) as [_ ->]. eexists. split; [done|].
    unfold transition_set. case_bool_decide as Hout; [|done].
    by rewrite Hout. }
  apply includes_string in Hty.
  destruct (decide (is_bigint checkinId)) as [Hid|Hid].
  - rewrite put_valid in Hput by done. injection Hput as <- <-.
    split_and!; [done|done| |exact Hrow].
    intros Hnone. cbn [db employee_checkins].
    by apply update_rows_other.
  - rewrite put_out_of_range in Hput by done. injection Hput as <- <-.
    split_and!; try done.
Qed.

Lemma transition_is_unguarded_witness :
  let '(res, s') :=
    put_employee_checkins six_pm 1 (js_string "break") checked_out in
  (status <$> employee_checkins (db checked_out)) = ["checkout"] /\
  status_code res = 200 /\
  exists r', employee_checkins (db s') !! 0%nat = Some r' /\
             id r' = 1 /\
             status r' = "break" /\
             on_break r' = bool_decide ("break" = "break").
Proof.
  pose proof (transition_is_unguarded six_pm 1 "break" checked_out) as H.
  destruct (put_employee_checkins six_pm 1 (js_string "break") checked_out)
    as [res s'].
  destruct H as (Hcode & _ & _ & Hrow).
  - rewrite !elem_of_cons. tauto.
  - split; [done|]. split; [by apply Hcode|].
    by apply (Hrow 0%nat _ eq_refl).
Defined.

Example transition_of_an_identifier_out_of_range :
  let '(res, s') :=
    put_employee_checkins six_pm (2 ^ 63) (js_string "break") checked_out in
  status_code res = 500 /\ message res = Some "Internal server error" /\
  db s' = db checked_out.
Proof. by vm_compute. Qed.

(** ** The finish transition *)

Lemma numeric_to_int4_nearest (num den : Z) :
  0 < den -> 2 * Z.abs (numeric_to_int4 num den * den - num) <= den.
Proof.
  intros Hden. unfold numeric_to_int4.
  pose proof (Z.div_mod (2 * Z.abs num + den) (2 * den) ltac:(lia)) as Hdm.
  pose proof (Z.mod_pos_bound (2 * Z.abs num + den) (2 * den) ltac:(lia))
    as Hrem.
  set (q := (2 * Z.abs num + den) / (2 * den)) in *.
  destruct (Z.sgn_spec num) as [(Hs & ->)| [(Hs & ->)| (Hs & ->)]].
  - rewrite Z.abs_eq in Hdm, Hrem by lia. lia.
  - subst num. cbn in Hdm, Hrem. lia.
  - rewrite Z.abs_neq in Hdm, Hrem by lia. lia.
Qed.

Lemma numeric_to_int4_exact (k den : Z) :
  0 < den -> numeric_to_int4 (k * den) den = k.
Proof.
  intros Hden. unfold numeric_to_int4.
  assert ((2 * Z.abs (k * den) + den) / (2 * den) = Z.abs k) as ->.
  { symmetry. apply (Z.div_unique _ _ _ den); [lia|].
    rewrite Z.abs_mul, (Z.abs_eq den) by lia. lia. }
  rewrite Z.sgn_mul, (Z.sgn_pos den), Z.mul_1_r by lia.
  rewrite Z.mul_comm. apply Z.abs_sgn.
Qed.

(** The daily minutes are the time of day of the check-out less the time
    of day of the check-in, less what the displacement of the session's
    zone has gained in between, in minutes. *)
Lemma daily_minutes_difference (r : checkin_row) (clk : clock) :
  daily_minutes r clk
  = numeric_to_int4
      (CURRENT_TIME clk - checkin_time r
       - (utc_offset clk
          - TimeZone clk (date_plus_time (checkin_date r) (checkin_time r))))
      microseconds_per_minute.
Proof.
  unfold daily_minutes, date_plus_timetz, timestamptz_of_timestamp,
    date_plus_time.
  f_equal. lia.
Qed.

Lemma daily_minutes_same_offset (r : checkin_row) (clk : clock) :
  TimeZone clk (date_plus_time (checkin_date r) (checkin_time r))
  = utc_offset clk ->
  daily_minutes r clk
  = numeric_to_int4 (CURRENT_TIME clk - checkin_time r)
                    microseconds_per_minute.
Proof.
  intros Hsame. rewrite daily_minutes_difference, Hsame. f_equal. lia.
Qed.

(** C4, as the spec states it, fails: the daily minutes are not always
    within a minute of the difference between check-out time and check-in
    time.  In a session whose zone puts its clocks forward at 02:00:00,
    the employee who checked in at 01:00:00 and checks out at 09:00:00 of
    that day gets 420 daily minutes, the time that has passed, and not
    the 480 minutes between the two times of day. *)
Lemma checkout_when_the_clocks_change :
  ~ (forall (now : instant) (checkinId : Z) (s : server) (i : nat)
            (r : checkin_row),
       reachable s ->
       employee_checkins (db s) !! i = Some r ->
       id r = checkinId ->
       status r <> "checkout" ->
       exists r' t,
         employee_checkins
           (db (put_employee_checkins now checkinId
                                      (js_string "checkout") s).2) !! i
         = Some r' /\
         checkout_time r' = Some t /\
         Z.abs (total_daily_minutes r' * 60000000 - (t - checkin_time r))
         < 60000000).
Proof.
  intros H.
  destruct (H (on_the_day_of_the_change (time_of_hms 9 0 0)) 1
              checked_in_before_the_change 0%nat _
              (reachable_run _ _ reachable_started) eq_refl eq_refl)
    as (r' & t & Hr' & Ht & Hnear).
  - done.
  - vm_compute in Hr'. injection Hr' as <-. cbn in Ht. injection Ht as <-.
    vm_compute in Hnear. discriminate Hnear.
Qed.

Example checkout_on_the_day_of_the_change :
  let s' := (put_employee_checkins
               (on_the_day_of_the_change (time_of_hms 9 0 0)) 1
               (js_string "checkout") checked_in_before_the_change).2 in
  (fun r => (checkin_time r, checkout_time r, total_daily_minutes r,
             total_daily_hours r))
    <$> employee_checkins (db s')
  = [(time_of_hms 1 0 0, Some (time_of_hms 9 0 0), 420, "07:00")].
Proof. by vm_compute. Qed.

(** C4, as the code has it.  The finish transition on a row, whatever its
    status, is answered 200; afterwards the row has status [checkout],
    the time of the database clock as check-out time and the break flag
    off.  When the displacement from UTC that the session's zone gives
    the check-in date and time is the one of the moment of the check-out
    (as it always is in a session in UTC), the daily minutes are the
    difference between check-out time and check-in time rounded to the
    nearest minute, and not cut down to the minutes completed; they are
    that difference when it is a whole number of minutes.  The row of the
    employee who checked in at 09:00:00 and out at 17:30:00 ends with
    status [checkout], check-out time 17:30:00, 510 daily minutes and
    daily hours ["08:30"]. *)
Theorem checkout_sets_daily_minutes (now : instant) (checkinId : Z)
    (s : server) (i : nat) (r : checkin_row) :
  employee_checkins (db s) !! i = Some r ->
  id r = checkinId ->
  - 2 ^ 63 <= checkinId < 2 ^ 63 ->
  let current_time := CURRENT_TIME (pg_clock now) in
  (let '(res, s') :=
     put_employee_checkins now checkinId (js_string "checkout") s in
   status_code res = 200 /\
   exists r',
     employee_checkins (db s') !! i = Some r' /\
     id r' = checkinId /\
     status r' = "checkout" /\
     checkout_time r' = Some current_time /\
     on_break r' = false /\
     checkin_date r' = checkin_date r /\
     checkin_time r' = checkin_time r /\
     (TimeZone (pg_clock now)
               (date_plus_time (checkin_date r) (checkin_time r))
      = utc_offset (pg_clock now) ->
      2 * Z.abs (total_daily_minutes r' * 60000000
                 - (current_time - checkin_time r))
        <= 60000000 /\
      (0 <= current_time - checkin_time r ->
       0 <= total_daily_minutes r') /\
      (forall k, current_time - checkin_time r = k * 60000000 ->
                 total_daily_minutes r' = k)))
  /\
  (exists r',
     employee_checkins (db checked_out) = [r'] /\
     checkin_time r' = time_of_hms 9 0 0 /\
     status r' = "checkout" /\
     checkout_time r' = Some (time_of_hms 17 30 0) /\
     total_daily_minutes r' = 510 /\
     total_daily_hours r' = "08:30").
Proof.
  intros Hi Hid Hp current_time. split.
  2:{ eexists. split; [by vm_compute|]. by vm_compute. }
  destruct (put_place now checkinId "checkout" s i r) as [Hres Hrow];
    try done.
  { rewrite !elem_of_cons. tauto. }
  destruct (put_employee_checkins now checkinId (js_string "checkout") s)
    as [res s']. cbn [fst snd] in Hres, Hrow. subst res.
  split; [done|]. rewrite Hrow. eexists. split; [done|].
  unfold transition_set. rewrite bool_decide_eq_true_2 by done.
  cbn -[daily_minutes]. split_and!; try done.
  intros Hsame. rewrite daily_minutes_same_offset by done.
  fold current_time. change 60000000 with microseconds_per_minute.
  split_and!.
  - by apply numeric_to_int4_nearest.
  - intros Hpos. unfold numeric_to_int4.
    apply Z.mul_nonneg_nonneg; [lia|].
    apply Z.div_pos; unfold microseconds_per_minute; lia.
  - intros k Hk. rewrite Hk. by apply numeric_to_int4_exact.
Qed.

Lemma checkout_sets_daily_minutes_witness :
  exists r,
    employee_checkins (db on_a_break) !! 0%nat = Some r /\
    id r = 1 /\ status r = "break" /\
    let '(res, s') :=
      put_employee_checkins six_pm 1 (js_string "checkout") on_a_break in
    status_code res = 200 /\
    exists r',
      employee_checkins (db s') !! 0%nat = Some r' /\
      id r' = 1 /\
      status r' = "checkout" /\
      checkout_time r' = Some (time_of_hms 18 0 0) /\
      on_break r' = false /\
      checkin_date r' = checkin_date r /\
      checkin_time r' = checkin_time r /\
      2 * Z.abs (total_daily_minutes r' * 60000000
                 - (time_of_hms 18 0 0 - checkin_time r))
        <= 60000000 /\
      total_daily_minutes r' = 540.
Proof.
  eexists. split; [by vm_compute|]. split; [done|]. split; [done|].
  pose proof (checkout_sets_daily_minutes six_pm 1 on_a_break 0%nat _
                eq_refl eq_refl ltac:(done)) as [H _].
  destruct (put_employee_checkins six_pm 1 (js_string "checkout") on_a_break)
    as [res s'].
  destruct H as (Hcode & r' & Hr' & Hid & Hst & Hout & Hbrk & Hd & Ht & Hmin).
  split; [exact Hcode|]. exists r'.
  destruct (Hmin eq_refl) as (Hnear & _ & Hexact).
  split_and!; try done. apply Hexact. by vm_compute.
Defined.

Example checkout_at_a_quarter_to_a_minute :
  let s' := (run [POST_employee_checkins (at_time 100 (time_of_hms 9 0 0)) 7;
                  PUT_employee_checkins (at_time 100 (time_of_hms 17 30 45)) 1
                                        (js_string "checkout")] started) in
  total_daily_minutes <$> employee_checkins (db s') = [511].
Proof. by vm_compute. Qed.

Example checkout_rounds_to_the_nearest_minute :
  numeric_to_int4 (time_of_hms 9 0 45 - time_of_hms 9 0 0)
                  microseconds_per_minute = 1 /\
  numeric_to_int4 (time_of_hms 9 0 29 - time_of_hms 9 0 0)
                  microseconds_per_minute = 0.
Proof. by vm_compute. Qed.

(** ** What a transition leaves alone *)

Lemma Forall2_update_rows (P : checkin_row -> checkin_row -> Prop)
    (clk : clock) (set : checkin_row -> checkin_row) (p : Z)
    (rows : list checkin_row) :
  (forall r, P r r) ->
  (forall r, P r (update_updated_at_column clk (set r))) ->
  Forall2 P rows (update_row clk set p <$> rows).
Proof.
  intros Hrefl Hset. apply Forall2_fmap_r, Forall_Forall2_diag, Forall_forall.
  intros r _. unfold compose, update_row. by case_bool_decide.
Qed.



(** ** Reading the history *)

#[local] Instance date_desc_total : Total date_desc.
Proof. intros r1 r2. unfold date_desc. lia. Qed.

#[local] Instance date_desc_trans : Transitive date_desc.
Proof. intros r1 r2 r3. unfold date_desc. lia. Qed.

Lemma ordered_rows_of_sorted (userId : Z) (d : database) :
  StronglySorted date_desc (ordered_rows_of userId d).
Proof. apply StronglySorted_merge_sort; apply _. Qed.

Lemma ordered_rows_of_perm (userId : Z) (d : database) :
  ordered_rows_of userId d ≡ₚ rows_of userId d.
Proof. apply merge_sort_Permutation. Qed.





Example history_of_the_checked_out_employee :
  body (get_employee_checkin 7 checked_out).1
  = Some (checkin_history
            [{| HistoryRow.checkin_date := 100;
                HistoryRow.checkin_time := time_of_hms 9 0 0;
                HistoryRow.checkout_time := Some (time_of_hms 17 30 0);
                HistoryRow.total_working_hours := "00:00";
                HistoryRow.total_break_hours := "00:00";
                HistoryRow.total_daily_hours := "08:30";
                HistoryRow.status := "checkout" |}]).
Proof. by vm_compute. Qed.

Example history_of_a_new_employee :
  get_employee_checkin 8 checked_out
  = ({| status_code := 200;
        message := None;
        body := Some (checkin_history []) |},
     {| db := db checked_out;
        received := received checked_out ++ [SELECT_checkin_history 8] |}).
Proof. by vm_compute. Qed.

Lemma NoDup_fmap_filter {A B} (f : A -> B) (P : A -> Prop)
    `{!forall x, Decision (P x)} (l : list A) :
  NoDup (f <$> l) -> NoDup (f <$> filter P l).
Proof.
  induction l as [|x l IH]; [done|].
  rewrite fmap_cons, NoDup_cons, filter_cons. intros [Hx Hl].
  case_decide; [|by apply IH].
  rewrite fmap_cons, NoDup_cons. split; [|by apply IH].
  intros Hin. apply Hx. apply list_elem_of_fmap in Hin as (y & Hy & Hin).
  apply list_elem_of_filter in Hin as [_ Hin].
  apply list_elem_of_fmap. eauto.
Qed.

(** C10.  The answer of [GET /get-employee-checkin] holds 30 rows when the
    table has more than 30 rows of the employee, and all of them
    otherwise.  The rows of the table with the employee's [user_id]
    split into the rows shown and the rows left out, which are reported
    nowhere in the answer; no row left out has a later check-in date than
    a row shown, and in a reachable state every row left out is strictly
    older than every row shown. *)
Theorem history_keeps_the_latest_thirty (userId : Z) (s : server) :
  let mine := filter (fun r => user_id r = userId) (employee_checkins (db s)) in
  exists (data : list HistoryRow.t) (returned omitted : list checkin_row),
    get_employee_checkin userId s
    = ({| status_code := 200;
          message := None;
          body := Some (checkin_history data) |},
       {| db := db s;
          received := received s ++ [SELECT_checkin_history userId] |}) /\
    Forall2 (fun h r =>
               HistoryRow.checkin_date h = checkin_date r /\
               HistoryRow.checkin_time h = checkin_time r /\
               HistoryRow.checkout_time h = checkout_time r /\
               HistoryRow.status h = status r)
            data returned /\
    returned ++ omitted ≡ₚ mine /\
    length data = (30 `min` length mine)%nat /\
    (forall r o, r ∈ returned -> o ∈ omitted ->
                 checkin_date o <= checkin_date r) /\
    (reachable s ->
     forall r o, r ∈ returned -> o ∈ omitted ->
                 checkin_date o < checkin_date r).
Proof.
  intros mine.
  exists (project <$> take 30 (ordered_rows_of userId (db s))),
         (take 30 (ordered_rows_of userId (db s))),
         (drop 30 (ordered_rows_of userId (db s))).
  assert (forall r o, r ∈ take 30 (ordered_rows_of userId (db s)) ->
                      o ∈ drop 30 (ordered_rows_of userId (db s)) ->
                      checkin_date o <= checkin_date r) as Hle.
  { intros r o Hr Ho.
    pose proof (ordered_rows_of_sorted userId (db s)) as Hsorted.
    rewrite <- (take_drop 30 (ordered_rows_of userId (db s))) in Hsorted.
    exact (StronglySorted_app_1_elem_of date_desc _ _ r o Hsorted Hr Ho). }
  split_and!.
  - done.
  - apply Forall2_fmap_l, Forall_Forall2_diag, Forall_forall.
    intros r _. by cbn.
  - rewrite take_drop. apply ordered_rows_of_perm.
  - by rewrite length_fmap, length_take, ordered_rows_of_perm.
  - exact Hle.
  - intros Hs r o Hr Ho. specialize (Hle r o Hr Ho).
    apply reachable_consistent in Hs. destruct Hs as [_ _ Hday _ _].
    apply (NoDup_fmap_filter day_key (fun r => user_id r = userId)) in Hday.
    fold (rows_of userId (db s)) in Hday.
    rewrite <- ordered_rows_of_perm in Hday.
    rewrite <- (take_drop 30 (ordered_rows_of userId (db s))) in Hday.
    rewrite fmap_app in Hday. apply NoDup_app in Hday as (_ & Hapart & _).
    assert (user_id r = userId /\ user_id o = userId) as [Hur Huo].
    { apply (subseteq_take 30) in Hr. apply (subseteq_drop 30) in Ho.
      rewrite ordered_rows_of_perm in Hr, Ho.
      apply list_elem_of_filter in Hr, Ho. tauto. }
    destruct (decide (checkin_date o = checkin_date r)) as [Heq|]; [|lia].
    exfalso. apply (Hapart (day_key r)).
    + apply list_elem_of_fmap. eauto.
    + apply list_elem_of_fmap. exists o. split; [|done].
      unfold day_key. by rewrite Hur, Huo, Heq.
Qed.

Lemma history_keeps_the_latest_thirty_witness :
  let s := run (daily_checkins 7 31) started in
  exists (data : list HistoryRow.t) (returned omitted : list checkin_row),
    body (get_employee_checkin 7 s).1 = Some (checkin_history data) /\
    Forall2 (fun h r =>
               HistoryRow.checkin_date h = checkin_date r /\
               HistoryRow.checkin_time h = checkin_time r /\
               HistoryRow.checkout_time h = checkout_time r /\
               HistoryRow.status h = status r)
            data returned /\
    returned ++ omitted
      ≡ₚ filter (fun r => user_id r = 7) (employee_checkins (db s)) /\
    length (employee_checkins (db s)) = 31%nat /\
    length data = 30%nat /\
    (forall r o, r ∈ returned -> o ∈ omitted ->
                 checkin_date o < checkin_date r).
Proof.
  intros s.
  destruct (history_keeps_the_latest_thirty 7 s)
    as (data & returned & omitted & Hget & Hshows & Hperm & Hlen & _ & Hlt).
  exists data, returned, omitted.
  split; [by rewrite Hget|]. split; [exact Hshows|]. split; [exact Hperm|].
  split; [by vm_compute|]. split; [rewrite Hlen; by vm_compute|].
  apply Hlt. apply reachable_run, reachable_started.
Defined.

Example history_after_31_days :
  let s := run (daily_checkins 7 31) started in
  length (employee_checkins (db s)) = 31%nat /\
  HistoryRow.checkin_date <$> select_checkin_history 7 (db s)
  = reverse (seqZ 2 30).
Proof. by vm_compute. Qed.

(** * Further properties of the code *)

Import Ledger.

(** ** The generated columns *)

Lemma LPAD_two (s : string) :
  exists a b, LPAD s 2 "0" = String a (String b EmptyString).
Proof.
  destruct s as [|a [|b s]]; [by eexists _, _..|].
  exists a, b. cbn. by destruct s.
Qed.

(** X1.  Whatever the integer in a minute column, negative or large, the
    text of the generated hours column has exactly five characters, the
    third one a colon: it always fits the [VARCHAR(10)] of the column. *)
Theorem hours_text_has_five_characters (m : Z) :
  String.length (hours_text m) = 5%nat /\
  String.substring 2 1 (hours_text m) = ":".
Proof.
  unfold hours_text.
  destruct (LPAD_two (int4_text (Z.quot m 60))) as (a & b & ->).
  destruct (LPAD_two (int4_text (Z.rem m 60))) as (c & d & ->).
  done.
Qed.

(** ** Invariants of the reachable tables *)

(** A property of rows that the insert establishes and both [SET] lists
    keep holds of every row of every reachable table. *)
Lemma reachable_Forall (P : checkin_row -> Prop) :
  (forall clk new_id userId, P (new_checkin clk new_id userId)) ->
  (forall clk ty r,
     ty ∈ ["checkin"; "break"; "checkout"] -> P r ->
     P (update_updated_at_column clk (transition_set clk ty r))) ->
  forall s, reachable s -> Forall P (employee_checkins (db s)).
Proof.
  intros Hnew Hset s Hs. induction Hs as [|rq s _ IH]; [constructor|].
  destruct rq as [now userId|now checkinId type|userId]; cbn [handle].
  - destruct (post_table now userId s) as [(-> & _)|(-> & _)]; [done|].
    apply Forall_app. split; [done|]. apply Forall_singleton, Hnew.
  - destruct (put_cases now s checkinId type) as [->|(Hty & _ & ->)]; [done|].
    apply includes_text in Hty. cbn [snd db employee_checkins].
    rewrite Forall_fmap. eapply Forall_impl; [exact IH|].
    intros r Hr. cbn. unfold update_row. case_bool_decide; [|done].
    by apply Hset.
  - by rewrite get_unchanged.
Qed.

(** X2.  No request writes the working minutes or the break minutes: in
    every reachable state both are 0 in every row, and the two generated
    columns read ["00:00"]. *)
Theorem working_and_break_minutes_stay_zero (s : server) :
  reachable s ->
  Forall (fun r => total_working_minutes r = 0 /\ total_break_minutes r = 0 /\
                   total_working_hours r = "00:00" /\
                   total_break_hours r = "00:00")
         (employee_checkins (db s)).
Proof.
  apply reachable_Forall.
  - done.
  - intros clk ty r _ (Hw & Hb & _). unfold transition_set.
    unfold total_working_hours, total_break_hours.
    case_bool_decide; cbn; rewrite Hw, Hb; done.
Qed.

Lemma working_and_break_minutes_stay_zero_witness :
  Forall (fun r => total_working_minutes r = 0 /\ total_break_minutes r = 0 /\
                   total_working_hours r = "00:00" /\
                   total_break_hours r = "00:00")
         (employee_checkins (db checked_out)).
Proof.
  apply (working_and_break_minutes_stay_zero checked_out).
  apply reachable_run, reachable_started.
Defined.

(** X3.  In every reachable state a row in status [checkout] has a
    check-out time, and a row without check-out time has 0 daily minutes. *)
Theorem checkout_time_is_set_with_the_status (s : server) :
  reachable s ->
  Forall (fun r => (status r = "checkout" -> is_Some (checkout_time r)) /\
                   (checkout_time r = None -> total_daily_minutes r = 0))
         (employee_checkins (db s)).
Proof.
  apply reachable_Forall.
  - done.
  - intros clk ty r _ (Hout & Hnone). unfold transition_set.
    case_bool_decide as Hty; cbn; [by eauto|].
    split; [done | exact Hnone].
Qed.

Lemma checkout_time_is_set_with_the_status_witness :
  Forall (fun r => (status r = "checkout" -> is_Some (checkout_time r)) /\
                   (checkout_time r = None -> total_daily_minutes r = 0))
         (employee_checkins (db checked_out)).
Proof.
  apply (checkout_time_is_set_with_the_status checked_out).
  apply reachable_run, reachable_started.
Defined.

(** X4.  No request removes a row or rewrites its identity: after any
    request the table has the rows it had, in the same places and with
    the same [id], [user_id], [checkin_date], [checkin_time] and
    [created_at], followed by at most one new row. *)
Theorem rows_are_kept (rq : request) (s : server) :
  let rows := employee_checkins (db s) in
  let rows' := employee_checkins (db (handle rq s).2) in
  Forall2 same_identity rows (take (length rows) rows') /\
  (length rows' = length rows \/ length rows' = S (length rows)).
Proof.
  cbn zeta.
  assert (forall rows, Forall2 same_identity rows rows) as Hrefl.
  { intros rows. by apply Forall_Forall2_diag, Forall_forall. }
  destruct rq as [now userId|now checkinId type|userId]; cbn [handle].
  - destruct (post_table now userId s) as [(-> & _)|(-> & _)].
    + rewrite firstn_all. auto.
    + rewrite take_app_length, length_app. cbn. split; [done|right; lia].
  - destruct (put_cases now s checkinId type) as [->|(_ & _ & ->)].
    { rewrite firstn_all. auto. }
    cbn [snd db employee_checkins].
    rewrite take_ge by (by rewrite length_fmap). rewrite length_fmap.
    split; [|by left]. apply Forall2_update_rows; [done|].
    intros r. unfold transition_set. by case_bool_decide.
  - rewrite get_unchanged, firstn_all. auto.
Qed.

(** X5.  In every reachable state an employee has at most one row per
    day: two rows at different places of the table differ in [user_id] or
    in [checkin_date]. *)
Theorem one_row_per_employee_and_day (s : server) :
  reachable s ->
  forall i j r1 r2,
    employee_checkins (db s) !! i = Some r1 ->
    employee_checkins (db s) !! j = Some r2 ->
    i <> j ->
    user_id r1 <> user_id r2 \/ checkin_date r1 <> checkin_date r2.
Proof.
  intros Hs i j r1 r2 Hi Hj Hij. apply reachable_consistent in Hs.
  destruct Hs as [_ _ Hday _ _].
  destruct (decide (user_id r1 = user_id r2)) as [Hu|]; [|by left].
  destruct (decide (checkin_date r1 = checkin_date r2)) as [Hd|]; [|by right].
  exfalso. apply Hij.
  apply (NoDup_lookup _ i j (day_key r1) Hday).
  - by rewrite list_lookup_fmap, Hi.
  - rewrite list_lookup_fmap, Hj. unfold day_key. cbn. by rewrite Hu, Hd.
Qed.

Lemma one_row_per_employee_and_day_witness :
  let s := run (daily_checkins 7 3) started in
  reachable s /\
  forall i j r1 r2,
    employee_checkins (db s) !! i = Some r1 ->
    employee_checkins (db s) !! j = Some r2 ->
    i <> j ->
    user_id r1 <> user_id r2 \/ checkin_date r1 <> checkin_date r2.
Proof.
  assert (reachable (run (daily_checkins 7 3) started)) as Hs
    by apply reachable_run, reachable_started.
  split; [exact Hs|].
  exact (one_row_per_employee_and_day _ Hs).
Defined.

(** X6.  In every reachable state the rows are in the order of their
    [id]: the ids increase strictly along the table, start at 1 or above
    and stay below the next value of the sequence. *)
Theorem ids_increase_along_the_table (s : server) :
  reachable s ->
  StronglySorted (fun r1 r2 => id r1 < id r2) (employee_checkins (db s)) /\
  Forall (fun r => 1 <= id r < employee_checkins_id_seq (db s))
         (employee_checkins (db s)).
Proof.
  intros Hs.
  assert (1 <= employee_checkins_id_seq (db s) /\
          StronglySorted (fun r1 r2 => id r1 < id r2)
                         (employee_checkins (db s)) /\
          Forall (fun r => 1 <= id r < employee_checkins_id_seq (db s))
                 (employee_checkins (db s))) as (_ & H1 & H2); [|done].
  induction Hs as [|rq s _ (Hseq & Hsorted & Hids)].
  { cbn. split_and!; [lia|constructor|constructor]. }
  destruct rq as [now userId|now checkinId type|userId]; cbn [handle].
  - destruct (post_table now userId s)
      as [(-> & Hle & _)|(-> & -> & _)].
    + split_and!; [lia|done|].
      eapply Forall_impl; [exact Hids|]. cbn. intros r Hr. lia.
    + split_and!; [lia| |].
      * apply StronglySorted_app_2; [|done|repeat constructor].
        intros r1 r2 Hr1 Hr2. apply list_elem_of_singleton in Hr2 as ->.
        rewrite Forall_forall in Hids. specialize (Hids r1 Hr1). cbn. lia.
      * apply Forall_app. split.
        -- eapply Forall_impl; [exact Hids|]. cbn. intros r Hr. lia.
        -- apply Forall_singleton. cbn. lia.
  - destruct (put_cases now s checkinId type) as [->|(_ & _ & ->)]; [done|].
    cbn [snd db employee_checkins employee_checkins_id_seq].
    split_and!; [done| |].
    + eapply StronglySorted_fmap; [|exact Hsorted].
      intros r1 r2. cbn.
      by rewrite !(proj1 (update_row_keys _ _ _ _)).
    + rewrite Forall_fmap. eapply Forall_impl; [exact Hids|].
      intros r Hr. cbn. by rewrite (proj1 (update_row_keys _ _ _ _)).
  - by rewrite get_unchanged.
Qed.

Lemma ids_increase_along_the_table_witness :
  let s := run (daily_checkins 7 3) started in
  StronglySorted (fun r1 r2 => id r1 < id r2) (employee_checkins (db s)) /\
  Forall (fun r => 1 <= id r < employee_checkins_id_seq (db s))
         (employee_checkins (db s)).
Proof.
  apply (ids_increase_along_the_table (run (daily_checkins 7 3) started)).
  apply reachable_run, reachable_started.
Defined.

(** ** More on the transitions *)

Lemma numeric_to_int4_negative (num den : Z) :
  0 < den -> 2 * num <= - den -> numeric_to_int4 num den < 0.
Proof.
  intros Hden Hnum. unfold numeric_to_int4.
  rewrite Z.sgn_neg, Z.abs_neq by lia.
  assert (1 <= (2 * - num + den) / (2 * den)); [|lia].
  apply Z.div_le_lower_bound; lia.
Qed.

(** X7.  When the displacement from UTC that the session's zone gives
    the check-in date and time is the one of the moment of the check-out,
    the finish transition computes the daily minutes from the two times
    of day alone.  For times of day they lie between -1440 and 1440; they
    are not negative when the check-out time is not before the check-in
    time; and they are negative as soon as the check-out time is half a
    minute or more before the check-in time, as for a check-out after
    midnight. *)
Theorem daily_minutes_follow_the_time_of_day (now : instant) (checkinId : Z)
    (s : server) (i : nat) (r : checkin_row) :
  employee_checkins (db s) !! i = Some r ->
  id r = checkinId ->
  - 2 ^ 63 <= checkinId < 2 ^ 63 ->
  0 <= checkin_time r < 86400000000 ->
  0 <= CURRENT_TIME (pg_clock now) < 86400000000 ->
  TimeZone (pg_clock now) (date_plus_time (checkin_date r) (checkin_time r))
  = utc_offset (pg_clock now) ->
  exists r',
    employee_checkins
      (db (put_employee_checkins now checkinId (js_string "checkout") s).2)
      !! i
    = Some r' /\
    -1440 <= total_daily_minutes r' <= 1440 /\
    (checkin_time r <= CURRENT_TIME (pg_clock now) ->
     0 <= total_daily_minutes r') /\
    (CURRENT_TIME (pg_clock now) + 30 * 1000000 <= checkin_time r ->
     total_daily_minutes r' < 0).
Proof.
  intros Hi Hid Hp Hin Hout Hsame.
  destruct (put_place now checkinId "checkout" s i r) as [_ ->]; try done.
  { rewrite !elem_of_cons. tauto. }
  eexists. split; [done|].
  unfold transition_set. rewrite bool_decide_eq_true_2 by done.
  cbn -[daily_minutes]. rewrite daily_minutes_same_offset by done.
  pose proof (numeric_to_int4_nearest
                (CURRENT_TIME (pg_clock now) - checkin_time r)
                microseconds_per_minute ltac:(done)) as Hnear.
  pose proof (numeric_to_int4_negative
                (CURRENT_TIME (pg_clock now) - checkin_time r)
                microseconds_per_minute ltac:(done)) as Hneg.
  unfold microseconds_per_minute in *.
  lia.
Qed.

Lemma daily_minutes_follow_the_time_of_day_witness :
  exists r,
    employee_checkins (db on_a_break) !! 0%nat = Some r /\
    exists r',
      employee_checkins
        (db (put_employee_checkins (at_time 101 (time_of_hms 0 30 0)) 1
                                   (js_string "checkout") on_a_break).2)
        !! 0%nat
      = Some r' /\
      -1440 <= total_daily_minutes r' <= 1440 /\
      (checkin_time r <= time_of_hms 0 30 0 -> 0 <= total_daily_minutes r') /\
      (time_of_hms 0 30 0 + 30 * 1000000 <= checkin_time r ->
       total_daily_minutes r' < 0).
Proof.
  eexists. split; [by vm_compute|].
  apply (daily_minutes_follow_the_time_of_day
           (at_time 101 (time_of_hms 0 30 0)) 1 on_a_break 0%nat).
  - reflexivity.
  - reflexivity.
  - done.
  - by vm_compute.
  - by vm_compute.
  - reflexivity.
Defined.

Example checkout_after_midnight :
  let s' := (put_employee_checkins (at_time 101 (time_of_hms 0 30 0)) 1
                                   (js_string "checkout") on_a_break).2 in
  (fun r => (checkin_date r, total_daily_minutes r, total_daily_hours r))
    <$> employee_checkins (db s')
  = [(100, -510, "-8:-3")].
Proof. by vm_compute. Qed.

Lemma run_transitions_cons (checkinId : Z) (step : instant * string)
    (steps : list (instant * string)) (s : server) :
  run (transitions checkinId (step :: steps)) s
  = run (transitions checkinId steps)
        (put_employee_checkins step.1 checkinId (js_string step.2) s).2.
Proof. done. Qed.

(** X8.  Transitions on one record compose without looking at the state
    they find: after any non-empty sequence of requests with recognised
    targets the record has the status of the last request, its break flag
    is set exactly when that target is [break], and its identity is the
    one it had. *)
Theorem last_transition_wins (checkinId : Z) (steps : list (instant * string))
    (last_step : instant * string) (s : server) (r : checkin_row) :
  find_checkin checkinId s = Some r ->
  Forall (fun step => step.2 ∈ ["checkin"; "break"; "checkout"]) steps ->
  last steps = Some last_step ->
  exists r',
    find_checkin checkinId (run (transitions checkinId steps) s) = Some r' /\
    status r' = last_step.2 /\
    on_break r' = bool_decide (last_step.2 = "break") /\
    same_identity r r'.
Proof.
  revert s r. induction steps as [|step steps IH]; intros s r Hr Hall Hlast.
  { discriminate Hlast. }
  apply Forall_cons in Hall as [Hstep Hall].
  rewrite run_transitions_cons.
  pose proof (find_checkin_put step.1 checkinId (js_string step.2) s
                (includes_string _ Hstep)) as Hfind.
  rewrite Hr in Hfind. cbn [fmap option_fmap option_map text_param] in Hfind.
  set (r1 := update_row _ _ _ r) in Hfind.
  apply find_checkin_Some in Hr as (_ & Hid & _).
  assert (same_identity r r1) as Hsame.
  { unfold r1, update_row, transition_set, same_identity.
    repeat case_bool_decide; done. }
  destruct steps as [|step' steps].
  - injection Hlast as <-. exists r1. split; [exact Hfind|].
    destruct (update_row_status (pg_clock step.1) step.2 checkinId r Hid)
      as [Hst Hbr]. done.
  - destruct (IH _ r1 Hfind Hall Hlast) as (r' & Hr' & Hst & Hbr & Hsame').
    exists r'. split_and!; try done.
    unfold same_identity in *. intuition congruence.
Qed.

Lemma last_transition_wins_witness :
  exists r r',
    find_checkin 1 checked_out = Some r /\
    find_checkin 1
      (run (transitions 1 [(six_pm, "break"); (six_pm, "checkin")])
           checked_out) = Some r' /\
    status r' = "checkin" /\
    on_break r' = bool_decide ("checkin" = "break") /\
    same_identity r r'.
Proof.
  eexists.
  destruct (last_transition_wins 1 [(six_pm, "break"); (six_pm, "checkin")]
              (six_pm, "checkin") checked_out _ eq_refl) as (r' & H).
  - repeat constructor; rewrite !elem_of_cons; tauto.
  - reflexivity.
  - exists r'. split; [reflexivity | exact H].
Defined.

(** ** The stored procedures called directly *)






Example status_of_21_characters :
  update_checkin_status (pg_clock six_pm) 5 "twenty_one_characters"
                        (db on_a_break)
  = (inl (string_data_right_truncation "character varying"), db on_a_break).
Proof. by vm_compute. Qed.

(** X10.  [create_checkin] on a consistent database always takes the next
    value of the sequence.  When the employee has a row for the current
    date, or when the users table has no row with the given id, it fails
    and leaves the table as it is, so that value is lost; otherwise it
    returns that value and appends the row that carries it. *)
Theorem create_checkin_takes_an_id (clk : clock) (users : list Z)
    (p_user_id : Z) (d : database) :
  consistent d ->
  let '(res, d') := create_checkin clk users p_user_id d in
  employee_checkins_id_seq d' = employee_checkins_id_seq d + 1 /\
  (Exists (fun r => user_id r = p_user_id /\
                    checkin_date r = CURRENT_DATE clk) (employee_checkins d) ->
   (exists e, res = inl e) /\ employee_checkins d' = employee_checkins d) /\
  (p_user_id ∉ users ->
   (exists e, res = inl e) /\ employee_checkins d' = employee_checkins d) /\
  (Forall (fun r => ~ (user_id r = p_user_id /\
                       checkin_date r = CURRENT_DATE clk))
          (employee_checkins d) ->
   p_user_id ∈ users ->
   res = inr (employee_checkins_id_seq d) /\
   exists row,
     employee_checkins d' = employee_checkins d ++ [row] /\
     id row = employee_checkins_id_seq d /\
     user_id row = p_user_id /\
     checkin_date row = CURRENT_DATE clk /\
     checkin_time row = CURRENT_TIME clk /\
     status row = "checkin").
Proof.
  intros [_ Hseq _ _ _]. unfold create_checkin.
  rewrite bool_decide_eq_false_2.
  2:{ rewrite Exists_exists. intros (r & Hr & Hid).
      rewrite Forall_forall in Hseq. specialize (Hseq r Hr). lia. }
  cbn [checkin_date new_checkin]. case_bool_decide as Hday.
  - split_and!; [done|by eauto|by eauto|].
    intros Hnone. exfalso. apply Exists_exists in Hday as (r & Hr & Hkey).
    rewrite Forall_forall in Hnone. by apply (Hnone r Hr).
  - case_bool_decide as Hfk.
    + split_and!; [done| | |].
      * intros Hex. by destruct Hday.
      * intros Hno. by destruct Hno.
      * intros _ _. split; [done|]. eexists. split; [done|]. by cbn.
    + split_and!; [done| |by eauto|done].
      intros Hex. by destruct Hday.
Qed.

Lemma create_checkin_takes_an_id_witness :
  let '(res, d') := create_checkin (pg_clock six_pm) [7] 7 (db checked_out) in
  employee_checkins_id_seq d' = employee_checkins_id_seq (db checked_out) + 1
  /\ (exists e, res = inl e)
  /\ employee_checkins d' = employee_checkins (db checked_out).
Proof.
  pose proof (create_checkin_takes_an_id (pg_clock six_pm) [7] 7
                                         (db checked_out)) as H.
  destruct (create_checkin (pg_clock six_pm) [7] 7 (db checked_out))
    as [res d'] eqn:Hcall.
  destruct H as (Hseq & Hfail & _).
  - apply reachable_consistent, reachable_run, reachable_started.
  - split; [exact Hseq|]. apply Hfail.
    apply Exists_exists. eexists. split; [left|]. by vm_compute.
Defined.

Example checkin_of_an_unknown_user :
  create_checkin (pg_clock six_pm) [7] 8 (db checked_out)
  = (inl (foreign_key_violation "employee_checkins_user_id_fkey"),
     {| employee_checkins := employee_checkins (db checked_out);
        employee_checkins_id_seq := 3 |}).
Proof. by vm_compute. Qed.

(** ** The pagination links *)

Section Links.
Import Pagination.
Variables (currentPage totalPages : Z) (baseUrl : string).

Let links : list link := generatePaginationLinks currentPage totalPages baseUrl.

Let page_link (i : Z) : link :=
  {| url := Some (page_url baseUrl i);
     label := number_text i;
     active := bool_decide (i = currentPage) |}.

(** The places of the links: the previous link at 0, the link of page [i]
    at [i], the next link after the last page. *)
Lemma links_lookup (j : nat) (l : link) :
  links !! j = Some l <->
  (j = 0%nat /\ head links = Some l) \/
  (1 <= Z.of_nat j <= totalPages /\ l = page_link (Z.of_nat j)) \/
  (j = S (Z.to_nat totalPages) /\ last links = Some l).
Proof.
  unfold links, generatePaginationLinks. fold page_link.
  rewrite last_app, last_app. cbn [last head app].
  rewrite lookup_cons_Some, lookup_app_Some, list_lookup_fmap_Some.
  rewrite length_fmap, length_seqZ.
  setoid_rewrite lookup_seqZ. setoid_rewrite list_lookup_singleton_Some.
  split.
  - intros [[-> <-]|[Hj [(i & -> & -> & Hlt)|(Hge & Hlast & <-)]]].
    + by left.
    + right; left. split; [lia|]. f_equal. lia.
    + right; right. split; [lia|done].
  - intros [[-> Hl]|[[Hj ->]|[-> Hl]]].
    + left. split; [done|]. by injection Hl.
    + right. split; [lia|]. left. exists (Z.of_nat j). split_and!; [done|lia|lia].
    + right. split; [lia|]. right. split_and!; [lia|lia|]. by injection Hl.
Qed.

(** X11.  [generatePaginationLinks] returns one link per page between the
    previous and the next link.  When the current page is one of the
    pages, its link is the only active one: it stands at the place of its
    number and carries that number as label.  Otherwise no link is
    active. *)
Theorem the_current_page_is_the_active_link :
  length links = (Z.to_nat totalPages + 2)%nat /\
  (1 <= currentPage <= totalPages ->
   links !! Z.to_nat currentPage
   = Some {| url := Some (page_url baseUrl currentPage);
             label := number_text currentPage;
             active := true |}) /\
  (forall j l, links !! j = Some l -> active l = true ->
               j = Z.to_nat currentPage /\ 1 <= currentPage <= totalPages).
Proof.
  split_and!.
  - unfold links, generatePaginationLinks.
    rewrite !length_app, length_fmap, length_seqZ. cbn. lia.
  - intros Hin. apply links_lookup. right; left.
    rewrite Z2Nat.id by lia. split; [done|]. unfold page_link.
    by rewrite bool_decide_eq_true_2.
  - intros j l Hl Hact. apply links_lookup in Hl as [[-> Hl]|[[Hj ->]|[-> Hl]]].
    + unfold links, generatePaginationLinks in Hl. cbn in Hl.
      injection Hl as <-. discriminate Hact.
    + cbn in Hact. apply bool_decide_eq_true_1 in Hact. subst currentPage.
      split; [lia|done].
    + unfold links, generatePaginationLinks in Hl.
      rewrite app_assoc, last_snoc in Hl.
      injection Hl as <-. discriminate Hact.
Qed.

(** X12.  The previous link has no target exactly when the current page
    is the first page or before it, and otherwise its target is the
    [?page=] url of the current page less one.  The next link has no
    target exactly when the current page is the last page or after it,
    and otherwise its target is the [?page=] url of the current page
    plus one.  Whenever that neighbouring page is one of the pages 1 to
    [totalPages], the target is the one of the link of that page. *)
Theorem previous_and_next_follow_the_pages :
  exists previous next,
    head links = Some previous /\ last links = Some next /\
    (url previous = None <-> currentPage <= 1) /\
    (url next = None <-> totalPages <= currentPage) /\
    (1 < currentPage ->
     url previous = Some (baseUrl +:+ "?page=" +:+ number_text (currentPage - 1)))
    /\
    (currentPage < totalPages ->
     url next = Some (baseUrl +:+ "?page=" +:+ number_text (currentPage + 1)))
    /\
    (1 <= currentPage - 1 <= totalPages ->
     url <$> links !! Z.to_nat (currentPage - 1) = Some (url previous)) /\
    (1 <= currentPage + 1 <= totalPages ->
     url <$> links !! Z.to_nat (currentPage + 1) = Some (url next)).
Proof.
  eexists _, _. split_and!.
  - reflexivity.
  - unfold links, generatePaginationLinks.
    by rewrite app_assoc, last_snoc.
  - cbn. case_bool_decide; split; intros; try done; lia.
  - cbn. case_bool_decide; split; intros; try done; lia.
  - intros Hin. cbn. by rewrite bool_decide_eq_true_2 by lia.
  - intros Hin. cbn. by rewrite bool_decide_eq_true_2 by lia.
  - intros Hin.
    rewrite (proj2 (links_lookup (Z.to_nat (currentPage - 1))
                                 (page_link (currentPage - 1)))).
    + cbn. by rewrite bool_decide_eq_true_2 by lia.
    + right; left. rewrite Z2Nat.id by lia. split; [lia|done].
  - intros Hin.
    rewrite (proj2 (links_lookup (Z.to_nat (currentPage + 1))
                                 (page_link (currentPage + 1)))).
    + cbn. by rewrite bool_decide_eq_true_2 by lia.
    + right; left. rewrite Z2Nat.id by lia. split; [lia|done].
Qed.

End Links.

(** On page 5 of 2 the previous link points to page 4, which has no link
    of its own. *)
Example links_of_page_5_of_2 :
  (fun l => (Pagination.url l, Pagination.label l, Pagination.active l))
    <$> Pagination.generatePaginationLinks 5 2 "/employees"
  = [(Some "/employees?page=4", "&laquo; Previous", false);
     (Some "/employees?page=1", "1", false);
     (Some "/employees?page=2", "2", false);
     (None, "Next &raquo;", false)].
Proof. by vm_compute. Qed.

(** ** The paginated list of check-ins *)

Section CheckinPages.
Import CheckinList.
Variables (users : list Users.user_row) (userId : option Z) (d : database).

Let matching : list checkin_row :=
  filter (where_clause userId) (employee_checkins d).

#[local] Instance date_time_desc_total : Total date_time_desc.
Proof. intros a b. unfold date_time_desc. lia. Qed.

#[local] Instance date_time_desc_trans : Transitive date_time_desc.
Proof. intros a b c. unfold date_time_desc. lia. Qed.

Lemma joined_elem_of (ru : checkin_row * Users.user_row) :
  ru ∈ joined users userId d <->
  ru.1 ∈ employee_checkins d /\ where_clause userId ru.1 /\
  ru.2 ∈ users /\ Users.id ru.2 = Store.user_id ru.1.
Proof.
  unfold joined. rewrite list_elem_of_bind. split.
  - intros (r & Hru & Hr). apply list_elem_of_bind in Hru as (u & Hru & Hu).
    apply list_elem_of_singleton in Hru as ->.
    apply list_elem_of_filter in Hr, Hu. cbn. tauto.
  - intros (Hr & Hw & Hu & Hid). exists ru.1. split.
    + apply list_elem_of_bind. exists ru.2. split.
      * destruct ru. cbn. left.
      * by apply list_elem_of_filter.
    + by apply list_elem_of_filter.
Qed.

Lemma joined_length :
  users_cover users d -> length (joined users userId d) = length matching.
Proof.
  intros Hfk. unfold joined. fold matching.
  assert (Forall (fun r => exists u,
                    filter (fun u => Users.id u = Store.user_id r) users = [u])
                 matching) as Hall.
  { apply Forall_forall. intros r Hr. unfold users_cover in Hfk.
    rewrite Forall_forall in Hfk. apply Hfk.
    apply list_elem_of_filter in Hr. tauto. }
  induction Hall as [|r rows (u & Hu) _ IH]; [done|].
  rewrite bind_cons, length_app, IH, Hu. done.
Qed.

Lemma ordered_length :
  users_cover users d ->
  Z.of_nat (length (ordered users userId d)) = count_query userId d.
Proof.
  intros Hfk. unfold ordered, count_query.
  by rewrite length_fmap, merge_sort_Permutation, joined_length.
Qed.

Lemma Math_ceil_div_spec (total perPage : Z) :
  0 < perPage ->
  (Math_ceil_div total perPage - 1) * perPage < total
  <= Math_ceil_div total perPage * perPage.
Proof.
  intros Hp. unfold Math_ceil_div.
  assert (perPage <> 0) as Hne by lia.
  pose proof (Z.div_mod (- total) perPage Hne) as Hdm.
  pose proof (Z.mod_pos_bound (- total) perPage Hp) as Hrem.
  set (q := - total / perPage) in *. set (r := (- total) mod perPage) in *.
  nia.
Qed.

(** A filter that is not a [BIGINT] matches no row. *)
Lemma matching_out_of_range : ~ bigint_filter userId -> matching = [].
Proof.
  intros Hout. unfold matching.
  induction (employee_checkins d) as [|r rows IH]; [done|].
  rewrite filter_cons, IH. rewrite decide_False; [done|].
  destruct userId as [u|]; cbn in *; tauto.
Qed.

(** What the handler answers on exact paging values. *)
Lemma get_employee_checkins_exact (page per_page : option Z) :
  let p := or_default page 1 in
  let n := or_default per_page 10 in
  bigint_filter userId ->
  exact_paging p n ->
  get_employee_checkins users page per_page userId d
  = page_of_checkins
      (take (Z.to_nat n) (drop (Z.to_nat ((p - 1) * n))
                               (ordered users userId d)))
      {| current_page := p;
         per_page := n;
         total := count_query userId d;
         last_page := Math_ceil_div (count_query userId d) n |}.
Proof.
  intros p n Hid (Hp & Hn & Hoff). unfold get_employee_checkins.
  fold p n. rewrite bool_decide_eq_true_2 by done. unfold limit_offset.
  rewrite bool_decide_eq_true_2; [done|].
  assert (0 <= (p - 1) * n) by (apply Z.mul_nonneg_nonneg; lia).
  unfold MAX_SAFE_INTEGER, int8_max in *. lia.
Qed.

(** The rows that match the filter, read on the table. *)
Lemma matching_all : userId = None -> matching = employee_checkins d.
Proof.
  intros ->. unfold matching.
  induction (employee_checkins d) as [|r rows IH]; [done|].
  by rewrite filter_cons, IH, decide_True.
Qed.

Lemma matching_user (u : Z) :
  userId = Some u -> is_bigint u ->
  matching = filter (fun r => Store.user_id r = u) (employee_checkins d).
Proof.
  intros -> Hu. unfold matching.
  induction (employee_checkins d) as [|r rows IH]; [done|].
  rewrite !filter_cons, IH. cbn.
  destruct (decide (Store.user_id r = u)) as [Heq|Hne].
  - by rewrite decide_True.
  - rewrite decide_False; [done|]. tauto.
Qed.

(** X13.  On a page of at least 1 and a page size of at least 1, with
    every check-in having its user and the [user_id] of the filter, if
    there is one, a 64-bit integer, [GET /employee-checkins] answers 200:
    [total] is the number of rows that match the filter, [last_page] is
    the least number of pages of that size that hold them, the page has
    as many rows as are left from its offset on, up to the page size, and
    a page after the last one is empty. *)
Theorem checkin_page_counts (page per_page : option Z) :
  let p := or_default page 1 in
  let n := or_default per_page 10 in
  users_cover users d ->
  exact_paging p n ->
  match userId with Some u => - 2 ^ 63 <= u < 2 ^ 63 | None => True end ->
  exists data m,
    get_employee_checkins users page per_page userId d
    = page_of_checkins data m /\
    current_page m = p /\ CheckinList.per_page m = n /\
    (userId = None -> total m = Z.of_nat (length (employee_checkins d))) /\
    (forall u, userId = Some u ->
       total m
       = Z.of_nat (length (filter (fun r => Store.user_id r = u)
                                  (employee_checkins d)))) /\
    (last_page m - 1) * n < total m <= last_page m * n /\
    Z.of_nat (length data) = Z.min n (Z.max 0 (total m - (p - 1) * n)) /\
    (last_page m < p -> data = []).
Proof.
  intros p n Hfk Hexact Hid. rewrite get_employee_checkins_exact by done.
  fold p n. destruct Hexact as (Hp & Hn & Hoff).
  eexists _, _. split; [done|].
  cbn [current_page CheckinList.per_page total last_page].
  assert (0 < n) as Hpos by lia.
  pose proof (Math_ceil_div_spec (count_query userId d) n Hpos) as Hceil.
  pose proof (ordered_length Hfk) as Hlen.
  assert (0 <= (p - 1) * n) by (apply Z.mul_nonneg_nonneg; lia).
  split_and!; try done; try apply Hceil.
  - intros Hall. unfold count_query. fold matching.
    by rewrite matching_all.
  - intros u Hu. unfold count_query. fold matching.
    rewrite (matching_user u); [done|done|]. by rewrite Hu in Hid.
  - rewrite length_take, length_drop. lia.
  - intros Hafter. apply nil_length_inv.
    rewrite length_take, length_drop. nia.
Qed.

(** X14.  Whatever the paging values, the rows of the answer are in
    descending order of check-in date and, within a date, of check-in
    time, and each of them shows a stored row that matches the filter,
    together with the name of the user the row belongs to. *)
Theorem checkin_page_rows (page per_page : option Z) :
  let data := data_of (get_employee_checkins users page per_page userId d) in
  StronglySorted
    (fun x y => checkin_date y < checkin_date x \/
                (checkin_date y = checkin_date x /\
                 checkin_time y <= checkin_time x)) data /\
  forall x, x ∈ data ->
    exists r u,
      r ∈ employee_checkins d /\ where_clause userId r /\
      u ∈ users /\ Users.id u = Store.user_id r /\
      x = select_row (r, u).
Proof.
  cbn zeta. unfold get_employee_checkins, limit_offset.
  case_bool_decide; cbn [data_of]; [|split; [constructor|]].
  2:{ intros x Hx. by apply not_elem_of_nil in Hx. }
  case_bool_decide; cbn [data_of]; [|split; [constructor|]].
  2:{ intros x Hx. by apply not_elem_of_nil in Hx. }
  set (n := Z.to_nat _). set (k := Z.to_nat _). split.
  - apply (StronglySorted_app_1_l _ _
             (drop n (drop k (ordered users userId d)))).
    rewrite take_drop.
    apply (StronglySorted_app_1_r _ (take k (ordered users userId d))).
    rewrite take_drop. unfold ordered.
    apply (StronglySorted_fmap _ date_time_desc); [done|].
    apply StronglySorted_merge_sort; apply _.
  - intros x Hx. apply (subseteq_take n), (subseteq_drop k) in Hx.
    unfold ordered in Hx. apply list_elem_of_fmap in Hx as ([r u] & -> & Hru).
    rewrite merge_sort_Permutation in Hru.
    apply joined_elem_of in Hru. cbn in Hru. exists r, u. tauto.
Qed.

Lemma or_default_nonzero (parsed : option Z) (fallback : Z) :
  fallback <> 0 -> or_default parsed fallback <> 0.
Proof.
  intros Hne. unfold or_default. destruct parsed as [n|]; [|done].
  by case_bool_decide.
Qed.

Lemma or_default_Some (n : Z) (fallback : Z) :
  n <> 0 -> or_default (Some n) fallback = n.
Proof. intros Hne. unfold or_default. by rewrite bool_decide_eq_false_2. Qed.

(** X15.  The page by page walk is complete: with every check-in having
    its user, no two matching rows equal in date and time, and a page size
    of at least 1, the pages 1 to [last_page], one after the other, are
    the whole ordered list, each row once. *)
Theorem checkin_pages_cover (per_page : option Z) :
  let n := or_default per_page 10 in
  let last := Math_ceil_div (count_query userId d) n in
  users_cover users d ->
  NoDup (order_key <$> matching) ->
  1 <= n <= MAX_SAFE_INTEGER ->
  count_query userId d <= MAX_SAFE_INTEGER ->
  concat ((fun k => data_of (get_employee_checkins users (Some k) per_page
                                                   userId d))
            <$> seqZ 1 last)
  = ordered users userId d.
Proof.
  intros n last Hfk _ Hn Hmax.
  destruct (decide (bigint_filter userId)) as [Hid|Hid].
  2:{ pose proof (matching_out_of_range Hid) as Hnone.
      unfold last, count_query, ordered, joined. fold matching.
      by rewrite Hnone. }
  assert (0 < n) as Hpos by lia.
  pose proof (Math_ceil_div_spec (count_query userId d) n Hpos) as Hceil.
  fold last in Hceil. pose proof (ordered_length Hfk) as Hlen.
  assert (forall m : nat,
            Z.of_nat m <= last ->
            concat ((fun k => data_of (get_employee_checkins
                                         users (Some k) per_page userId d))
                      <$> seqZ 1 (Z.of_nat m))
            = take (m * Z.to_nat n) (ordered users userId d)) as Hpages.
  { induction m as [|m IH]; intros Hm; [done|].
    rewrite seqZ_S, fmap_app, concat_app, IH by lia. cbn [fmap list_fmap concat].
    rewrite app_nil_r, get_employee_checkins_exact; [|done|].
    2:{ rewrite or_default_Some by lia. fold n.
        unfold exact_paging. split_and!; nia. }
    rewrite or_default_Some by lia. fold n. cbn [data_of].
    replace (Z.to_nat ((1 + Z.of_nat m - 1) * n)) with (m * Z.to_nat n)%nat
      by nia.
    rewrite take_take_drop. f_equal. lia. }
  assert (0 <= last) as Hlast by nia.
  rewrite <- (Z2Nat.id last) by done. rewrite Hpages by lia.
  apply take_ge. nia.
Qed.

(** X16.  The validation chains of the route do not guard the handler.  A
    negative page or page size reaches the database and the answer is
    500, not 400; a page or page size that is 0 or not a number is
    replaced by 1 or 10; and a page size above 100 is served like any
    other. *)
Theorem paging_is_not_validated (page per_page : option Z) :
  let p := or_default page 1 in
  let n := or_default per_page 10 in
  (p < 0 \/ n < 0 ->
   get_employee_checkins users page per_page userId d
   = internal_server_error) /\
  (p <> 0 /\ n <> 0) /\
  get_employee_checkins users page per_page userId d
  = get_employee_checkins users (Some p) (Some n) userId d.
Proof.
  intros p n.
  assert (p <> 0 /\ n <> 0) as [Hp Hn] by (split; by apply or_default_nonzero).
  split_and!; try done.
  - intros Hneg. unfold get_employee_checkins. fold p n.
    case_bool_decide; [|done].
    unfold limit_offset. rewrite bool_decide_eq_false_2; [done|].
    intros [Hlim Hoff]. nia.
  - unfold get_employee_checkins. by rewrite !or_default_Some.
Qed.

End CheckinPages.

Import Staff.

Lemma staff_cover : CheckinList.users_cover staff (db three_days).
Proof. repeat constructor; by eexists. Qed.

Lemma checkin_page_counts_witness :
  CheckinList.users_cover staff (db three_days) /\
  CheckinList.exact_paging 2 2 /\
  exists data m,
    CheckinList.get_employee_checkins staff (Some 2) (Some 2) (Some 7)
                                      (db three_days)
    = CheckinList.page_of_checkins data m /\
    CheckinList.current_page m = 2 /\ CheckinList.per_page m = 2 /\
    CheckinList.total m = 3 /\
    (CheckinList.last_page m - 1) * 2 < CheckinList.total m
    <= CheckinList.last_page m * 2 /\
    Z.of_nat (length data) = 1.
Proof.
  assert (CheckinList.exact_paging 2 2) as Hexact by (by vm_compute).
  split; [exact staff_cover|]. split; [exact Hexact|].
  destruct (checkin_page_counts staff (Some 7) (db three_days)
              (Some 2) (Some 2) staff_cover Hexact ltac:(done))
    as (data & m & Hget & Hp & Hn & _ & Htotal & Hlast & Hlen & _).
  specialize (Htotal 7 eq_refl).
  assert (CheckinList.total m = 3) as H3 by (rewrite Htotal; by vm_compute).
  exists data, m. split_and!; try done; try apply Hlast.
  rewrite Hlen, H3. by vm_compute.
Defined.

Example checkins_of_a_user_id_out_of_range :
  CheckinList.get_employee_checkins staff (Some 1) (Some 10) (Some (2 ^ 63))
                                    (db three_days)
  = CheckinList.internal_server_error.
Proof. by vm_compute. Qed.

Lemma checkin_pages_cover_witness :
  concat ((fun k => CheckinList.data_of
                      (CheckinList.get_employee_checkins
                         staff (Some k) (Some 2) None (db three_days)))
            <$> seqZ 1 (CheckinList.Math_ceil_div
                          (CheckinList.count_query None (db three_days)) 2))
  = CheckinList.ordered staff None (db three_days).
Proof.
  apply (checkin_pages_cover staff None (db three_days) (Some 2)).
  - exact staff_cover.
  - apply (bool_decide_unpack _). by vm_compute.
  - by vm_compute.
  - by vm_compute.
Defined.

(** ** The last check-in date *)

(** X17.  The [last_checkin_date] of the employee overview is null
    exactly when the table has no check-in of the employee; otherwise it
    is the check-in date of one of the employee's rows and no row of the
    employee has a later one.  It is the date of the first row of the
    employee's history. *)
Theorem last_checkin_date_is_the_latest (u_id : Z) (d : database) :
  match Overview.last_checkin_date u_id d with
  | None => forall r, r ∈ employee_checkins d -> user_id r <> u_id
  | Some latest =>
      (exists r, r ∈ employee_checkins d /\ user_id r = u_id /\
                 checkin_date r = latest) /\
      (forall r, r ∈ employee_checkins d -> user_id r = u_id ->
                 checkin_date r <= latest)
  end /\
  Overview.last_checkin_date u_id d
  = HistoryRow.checkin_date <$> head (select_checkin_history u_id d).
Proof.
  unfold Overview.last_checkin_date, select_checkin_history.
  pose proof (ordered_rows_of_sorted u_id d) as Hsorted.
  pose proof (ordered_rows_of_perm u_id d) as Hperm.
  destruct (ordered_rows_of u_id d) as [|r0 rest] eqn:Hord; cbn.
  - split; [|done]. intros r Hr Hu.
    assert (r ∈ rows_of u_id d) as Hin by (by apply list_elem_of_filter).
    rewrite <- Hperm in Hin. by apply not_elem_of_nil in Hin.
  - split; [|done]. split.
    + exists r0. assert (r0 ∈ rows_of u_id d) as Hin
        by (rewrite <- Hperm; left).
      apply list_elem_of_filter in Hin. tauto.
    + intros r Hr Hu.
      assert (r ∈ r0 :: rest) as Hin.
      { rewrite Hperm. by apply list_elem_of_filter. }
      apply StronglySorted_cons in Hsorted as [Hall _].
      apply elem_of_cons in Hin as [->|Hin]; [lia|].
      rewrite Forall_forall in Hall. exact (Hall r Hin).
Qed.

Example last_checkin_dates :
  Overview.last_checkin_date 7 (db three_days) = Some 3 /\
  Overview.last_checkin_date 9 (db three_days) = None.
Proof. by vm_compute. Qed.

(** ** The access gate *)

Section Gate.
Variable jwt_verify : string -> option (option Z).
Variable users : list Users.user_row.

Let Space : Stdlib.Strings.Ascii.ascii := Stdlib.Strings.Ascii.Space.

Lemma authenticateToken_next (authHeader : option string)
    (user : Auth.authenticated) :
  Auth.authenticateToken jwt_verify users authHeader = Auth.next user ->
  exists header token u,
    authHeader = Some header /\
    Auth.split Space header !! 1%nat = Some token /\
    jwt_verify token = Some (Some (Users.id u)) /\
    u ∈ users /\ Users.employee_status u = "active" /\
    user = Auth.select_user u.
Proof.
  unfold Auth.authenticateToken, Auth.token_of.
  destruct authHeader as [header|]; [|done].
  case_bool_decide; [done|].
  destruct (Auth.split Stdlib.Strings.Ascii.Space header !! 1%nat)
    as [token|] eqn:Htoken; [|done].
  case_bool_decide; [done|].
  destruct (jwt_verify token) as [decoded|] eqn:Hverify; [|done].
  destruct (Auth.select_active users decoded "active") as [|first others]
    eqn:Hrows; [done|].
  intros [= <-].
  assert (first ∈ Auth.select_active users decoded "active") as Hin
    by (rewrite Hrows; left).
  unfold Auth.select_active in Hin.
  apply list_elem_of_fmap in Hin as (u & -> & Hu).
  apply list_elem_of_filter in Hu as [[<- Hactive] Hu].
  exists header, token, u. by split_and!.
Qed.


Lemma split_scheme (scheme rest : string) :
  Space ∉ String.list_ascii_of_string scheme ->
  Auth.split Space (scheme +:+ " " +:+ rest)
  = scheme :: Auth.split Space rest.
Proof.
  induction scheme as [|c scheme IH]; intros Hno; [done|].
  cbn in Hno. apply not_elem_of_cons in Hno as [Hc Hno].
  change (Auth.split Space (String c scheme +:+ " " +:+ rest))
    with (if decide (c = Space)
          then EmptyString :: Auth.split Space (scheme +:+ " " +:+ rest)
          else match Auth.split Space (scheme +:+ " " +:+ rest) with
               | piece :: pieces => String c piece :: pieces
               | [] => [String c EmptyString]
               end).
  rewrite decide_False by done. by rewrite IH.
Qed.

(** X19.  The middleware does not look at the scheme of the header: two
    headers that differ only in the word before the first space, be it
    [Bearer] or anything else without a space, get the same outcome. *)
Theorem the_scheme_is_not_checked (scheme1 scheme2 rest : string) :
  Space ∉ String.list_ascii_of_string scheme1 ->
  Space ∉ String.list_ascii_of_string scheme2 ->
  Auth.authenticateToken jwt_verify users (Some (scheme1 +:+ " " +:+ rest))
  = Auth.authenticateToken jwt_verify users (Some (scheme2 +:+ " " +:+ rest)).
Proof.
  intros H1 H2. unfold Auth.authenticateToken, Auth.token_of.
  rewrite !split_scheme by done. cbn [lookup list_lookup].
  assert (forall scheme, scheme +:+ " " +:+ rest <> EmptyString) as Hne.
  { intros scheme. by destruct scheme. }
  by rewrite !bool_decide_eq_false_2 by apply Hne.
Qed.

End Gate.


Lemma the_scheme_is_not_checked_witness :
  Auth.authenticateToken two_tokens staff (Some "Bearer ann")
  = Auth.authenticateToken two_tokens staff (Some "Basic ann").
Proof.
  apply (the_scheme_is_not_checked two_tokens staff "Bearer" "Basic" "ann").
  - apply (bool_decide_unpack _). by vm_compute.
  - apply (bool_decide_unpack _). by vm_compute.
Defined.

Example deactivated_user_is_refused :
  Auth.authenticateToken two_tokens staff (Some "Bearer bob")
  = Auth.answered 401 "Invalid token or user deactivated" /\
  Auth.authenticateToken two_tokens staff (Some "Bearer  ann")
  = Auth.answered 401 "Access token required" /\
  Auth.authenticateToken two_tokens staff (Some "ann")
  = Auth.answered 401 "Access token required" /\
  Auth.authenticateToken two_tokens staff (Some "Bearer eve")
  = Auth.answered 403 "Invalid token".
Proof. by vm_compute. Qed.

(** ** Guarded routes *)

(** X20.  Behind the middleware, [POST /employee-checkins] inserts rows
    for active users of the [users] table only: a request either leaves
    the table as it is, or appends one row whose [user_id] is the id of a
    user in status [active], the one the token names. *)
Theorem guarded_checkins_have_a_user
    (jwt_verify : string -> option (option Z)) (users : list Users.user_row)
    (authHeader : option string) (now : instant) (s : server) :
  let s' := (Guarded.guarded jwt_verify users authHeader
               (post_employee_checkins now) s).2 in
  employee_checkins (db s') = employee_checkins (db s) \/
  exists row u,
    employee_checkins (db s') = employee_checkins (db s) ++ [row] /\
    u ∈ users /\ Users.id u = user_id row /\
    Users.employee_status u = "active".
Proof.
  cbn zeta. unfold Guarded.guarded.
  destruct (Auth.authenticateToken jwt_verify users authHeader)
    as [user|code text] eqn:Hauth; [|by left].
  apply authenticateToken_next in Hauth
    as (header & token & u & _ & _ & _ & Hu & Hactive & ->).
  destruct (post_table now (Auth.id (Auth.select_user u)) s)
    as [(Hrows & _)|(Hrows & _)]; [by left|].
  right. eexists _, u. split; [exact Hrows|]. by split_and!.
Qed.

(** ** Employee numbers *)

Section EmployeeNumbers.
Import EmployeeId.

Lemma prefix_append (p t : string) : String.prefix p (p +:+ t) = true.
Proof.
  induction p as [|c p IH]; [by destruct t|]. simpl.
  destruct (Stdlib.Strings.Ascii.ascii_dec c c) as [_|Hne]; [exact IH|].
  by destruct Hne.
Qed.

Lemma drop_text_append (p t : string) :
  drop_text (String.length p) (p +:+ t) = t.
Proof.
  unfold drop_text. induction p as [|c p IH]; cbn.
  - rewrite Nat.sub_0_r. apply substring_all.
  - exact IH.
Qed.

(** Removing a pattern from the text it starts. *)
Lemma replace_prefix (p t : string) : replace p EmptyString (p +:+ t) = t.
Proof.
  unfold replace.
  assert (String.index 0 p (p +:+ t) = Some 0%nat) as ->.
  { pose proof (prefix_append p t) as Hp.
    destruct (p +:+ t) as [|c s] eqn:Hs.
    - by destruct p.
    - destruct p as [|a p]; [done|]. simpl in Hp |- *. by rewrite Hp. }
  cbn [Nat.add]. rewrite drop_text_append.
  by destruct (p +:+ t).
Qed.

Lemma take_while_digits (u : Decimal.uint) :
  take_while is_decimal_digit (NilEmpty.string_of_uint u)
  = NilEmpty.string_of_uint u.
Proof. induction u; cbn; by rewrite ?IHu. Qed.

(** [parseInt] reads back the digits of an unsigned decimal number. *)
Lemma parseInt_digits (u : Decimal.uint) :
  u <> Decimal.Nil ->
  parseInt (NilEmpty.string_of_uint u) = safe (Z.of_uint u).
Proof.
  intros Hu. unfold parseInt.
  assert (trim_start (NilEmpty.string_of_uint u) = NilEmpty.string_of_uint u)
    as ->.
  { destruct u; try done; reflexivity. }
  assert (String.prefix "-" (NilEmpty.string_of_uint u) = false) as ->.
  { destruct u; try done. }
  assert (String.prefix "+" (NilEmpty.string_of_uint u) = false) as ->.
  { destruct u; try done. }
  cbn [orb].
  assert (String.prefix "0x" (NilEmpty.string_of_uint u) = false) as ->.
  { destruct u as [|u| | | | | | | | |]; try done. by destruct u. }
  assert (String.prefix "0X" (NilEmpty.string_of_uint u) = false) as ->.
  { destruct u as [|u| | | | | | | | |]; try done. by destruct u. }
  cbn [orb]. unfold decimal_value. rewrite take_while_digits.
  rewrite bool_decide_eq_false_2 by (by destruct u).
  by rewrite NilEmpty.usu.
Qed.
Lemma number_text_uint (n : Z) :
  0 <= n ->
  exists u, u <> Decimal.Nil /\
            Pagination.number_text n = NilEmpty.string_of_uint u /\
            Z.of_uint u = n.
Proof.
  intros Hn. unfold Pagination.number_text. destruct n as [|p|p]; [| |lia].
  - by exists (Decimal.D0 Decimal.Nil).
  - exists (Pos.to_uint p).
    pose proof (DecimalPos.Unsigned.to_uint_nonnil p) as Hnil.
    split_and!; [done| |].
    + cbn. unfold NilZero.string_of_uint. by destruct (Pos.to_uint p).
    + unfold Z.of_uint. by rewrite DecimalPos.Unsigned.of_to.
Qed.

Lemma padStart_uint (u : Decimal.uint) :
  u <> Decimal.Nil ->
  exists u', u' <> Decimal.Nil /\
             padStart (NilEmpty.string_of_uint u) 3 "0"
             = NilEmpty.string_of_uint u' /\
             Z.of_uint u' = Z.of_uint u.
Proof.
  intros Hu. unfold padStart.
  destruct (NilEmpty.string_of_uint u) as [|a [|b [|c t]]] eqn:Htext.
  - by destruct u.
  - exists (Decimal.D0 (Decimal.D0 u)). cbn. by rewrite Htext.
  - exists (Decimal.D0 u). cbn. by rewrite Htext.
  - exists u. by rewrite Htext.
Qed.

(** The number of an employee id is read back from its text. *)
Lemma parseInt_employee_id_text (n : Z) :
  0 <= n <= CheckinList.MAX_SAFE_INTEGER ->
  parseInt (replace "EMP" EmptyString (employee_id_text n)) = Int n.
Proof.
  intros Hn. unfold employee_id_text. rewrite replace_prefix.
  destruct (number_text_uint n) as (u & Hu & -> & Hval); [lia|].
  destruct (padStart_uint u Hu) as (u' & Hu' & -> & Hval').
  rewrite parseInt_digits, Hval', Hval by done.
  unfold safe. rewrite bool_decide_eq_true_2; [done|].
  unfold CheckinList.MAX_SAFE_INTEGER in *. lia.
Qed.

Lemma next_employee_id_text (n : Z) :
  0 <= n < CheckinList.MAX_SAFE_INTEGER ->
  next_employee_id [Some (employee_id_text n)] = Some (employee_id_text (n + 1)).
Proof.
  intros Hn. unfold next_employee_id, next_number.
  rewrite bool_decide_eq_false_2 by done.
  rewrite parseInt_employee_id_text by lia. unfold plus_one, safe.
  rewrite bool_decide_eq_true_2; [done|].
  unfold CheckinList.MAX_SAFE_INTEGER in *. lia.
Qed.

Lemma employee_id_text_inj (n m : Z) :
  0 <= n <= CheckinList.MAX_SAFE_INTEGER ->
  0 <= m <= CheckinList.MAX_SAFE_INTEGER ->
  employee_id_text n = employee_id_text m -> n = m.
Proof.
  intros Hn Hm Heq.
  pose proof (parseInt_employee_id_text n Hn) as H1.
  rewrite Heq, parseInt_employee_id_text in H1 by done. by injection H1.
Qed.

#[local] Instance id_desc_total : Total id_desc.
Proof. intros u v. unfold id_desc. lia. Qed.

#[local] Instance id_desc_trans : Transitive id_desc.
Proof. intros u v w. unfold id_desc. lia. Qed.

(** The row of [ORDER BY id DESC LIMIT 1] is the user with the greatest
    id. *)
Lemma select_last_employee_id_greatest (users : list Users.user_row)
    (u : Users.user_row) :
  NoDup (Users.id <$> users) ->
  u ∈ users -> Forall (fun v => Users.id v <= Users.id u) users ->
  select_last_employee_id users = [Users.employee_id u].
Proof.
  intros Hpk Hu Hmax. unfold select_last_employee_id.
  pose proof (StronglySorted_merge_sort id_desc users) as Hsorted.
  pose proof (merge_sort_Permutation id_desc users) as Hperm.
  destruct (merge_sort id_desc users) as [|h rest]; cbn.
  { rewrite <- Hperm in Hu. by apply not_elem_of_nil in Hu. }
  do 2 f_equal.
  assert (h ∈ users) as Hh by (rewrite <- Hperm; left).
  assert (Users.id h = Users.id u) as Hid.
  { apply StronglySorted_cons in Hsorted as [Hall _].
    rewrite Forall_forall in Hmax. specialize (Hmax h Hh).
    rewrite <- Hperm in Hu. apply elem_of_cons in Hu as [->|Hu]; [done|].
    rewrite Forall_forall in Hall. specialize (Hall u Hu).
    unfold id_desc in Hall. lia. }
  apply list_elem_of_lookup in Hh as [i Hi], Hu as [j Hj].
  assert (i = j) as ->; [|congruence].
  apply (NoDup_lookup _ i j (Users.id u) Hpk).
  - by rewrite list_lookup_fmap, Hi, <- Hid.
  - by rewrite list_lookup_fmap, Hj.
Qed.

(** X21.  The numbering continues itself: when the user with the greatest
    id carries the employee id that the handler writes for the number [n],
    the next employee gets the one for [n + 1], with three digits or more
    ([EMP999] is followed by [EMP1000]); in an empty table the first one is
    [EMP001]. *)
Theorem employee_ids_count_up (users : list Users.user_row)
    (u : Users.user_row) (n : Z) :
  NoDup (Users.id <$> users) ->
  u ∈ users -> Forall (fun v => Users.id v <= Users.id u) users ->
  Users.employee_id u = Some (employee_id_text n) ->
  0 <= n < CheckinList.MAX_SAFE_INTEGER ->
  generate_employee_id users = Some (employee_id_text (n + 1)) /\
  generate_employee_id [] = Some "EMP001".
Proof.
  intros Hpk Hu Hmax Hid Hn. split; [|done]. unfold generate_employee_id.
  rewrite (select_last_employee_id_greatest users u), Hid by done.
  by apply next_employee_id_text.
Qed.

(** X22.  As long as every user carries no employee id or one that the
    handler wrote for a number up to that of the user with the greatest
    id, the id for the next employee is one that no user has. *)
Theorem generated_employee_id_is_fresh (users : list Users.user_row)
    (u : Users.user_row) (n : Z) :
  NoDup (Users.id <$> users) ->
  u ∈ users -> Forall (fun v => Users.id v <= Users.id u) users ->
  Users.employee_id u = Some (employee_id_text n) ->
  0 <= n < CheckinList.MAX_SAFE_INTEGER ->
  Forall (fun v => Users.employee_id v = None \/
                   exists k, 0 <= k <= n /\
                             Users.employee_id v = Some (employee_id_text k))
         users ->
  generate_employee_id users ∉ Users.employee_id <$> users.
Proof.
  intros Hpk Hu Hmax Hid Hn Hall Hin. unfold generate_employee_id in Hin.
  rewrite (select_last_employee_id_greatest users u), Hid in Hin by done.
  rewrite next_employee_id_text in Hin by done.
  apply list_elem_of_fmap in Hin as (v & Hv & Hvin).
  rewrite Forall_forall in Hall.
  destruct (Hall v Hvin) as [Hnone|(k & Hk & Hsome)]; [congruence|].
  assert (employee_id_text (n + 1) = employee_id_text k) as Heq
    by congruence.
  apply employee_id_text_inj in Heq; lia.
Qed.

(** X23.  An employee id of the newest user that does not read as a number
    spoils the numbering: the next id is [EMPNaN], and [EMPNaN] itself
    does not read as a number, so the handler proposes it again for every
    employee after. *)
Theorem unreadable_employee_id_gives_NaN (users : list Users.user_row)
    (u : Users.user_row) (employee_id : string) :
  NoDup (Users.id <$> users) ->
  u ∈ users -> Forall (fun v => Users.id v <= Users.id u) users ->
  Users.employee_id u = Some employee_id ->
  employee_id <> EmptyString ->
  parseInt (replace "EMP" EmptyString employee_id) = NaN ->
  generate_employee_id users = Some "EMPNaN" /\
  parseInt (replace "EMP" EmptyString "EMPNaN") = NaN.
Proof.
  intros Hpk Hu Hmax Hid Hne Hnan. split; [|by vm_compute].
  unfold generate_employee_id.
  rewrite (select_last_employee_id_greatest users u), Hid by done.
  unfold next_employee_id, next_number.
  rewrite bool_decide_eq_false_2 by done. by rewrite Hnan.
Qed.

End EmployeeNumbers.

Lemma staff_ids :
  NoDup (Users.id <$> staff) /\
  Forall (fun v => Users.id v <= 8) staff.
Proof. split; [apply (bool_decide_unpack _); by vm_compute|]. by repeat constructor. Qed.

Lemma employee_ids_count_up_witness :
  EmployeeId.generate_employee_id staff = Some "EMP009" /\
  EmployeeId.generate_employee_id [] = Some "EMP001".
Proof.
  destruct staff_ids as [Hpk Hmax].
  apply (employee_ids_count_up staff
           {| Users.id := 8; Users.employee_id := Some "EMP008";
              Users.email := "bob@kistr.com";
              Users.first_name := "Bob"; Users.last_name := "Ray";
              Users.employee_status := "inactive" |} 8).
  - exact Hpk.
  - right; left.
  - exact Hmax.
  - reflexivity.
  - by vm_compute.
Defined.

Lemma generated_employee_id_is_fresh_witness :
  EmployeeId.generate_employee_id staff ∉ Users.employee_id <$> staff.
Proof.
  destruct staff_ids as [Hpk Hmax].
  apply (generated_employee_id_is_fresh staff
           {| Users.id := 8; Users.employee_id := Some "EMP008";
              Users.email := "bob@kistr.com";
              Users.first_name := "Bob"; Users.last_name := "Ray";
              Users.employee_status := "inactive" |} 8).
  - exact Hpk.
  - right; left.
  - exact Hmax.
  - reflexivity.
  - by vm_compute.
  - apply Forall_cons. split; [right; exists 7; by vm_compute|].
    apply Forall_singleton. right. exists 8. by vm_compute.
Defined.

Lemma unreadable_employee_id_gives_NaN_witness :
  EmployeeId.generate_employee_id
    [{| Users.id := 1; Users.employee_id := Some "ADMIN";
        Users.email := "admin@kistr.com";
        Users.first_name := "Wolfgang"; Users.last_name := "Admin";
        Users.employee_status := "active" |}] = Some "EMPNaN" /\
  EmployeeId.parseInt (EmployeeId.replace "EMP" EmptyString "EMPNaN")
  = EmployeeId.NaN.
Proof.
  eapply (unreadable_employee_id_gives_NaN _ _ "ADMIN").
  - apply NoDup_singleton.
  - left.
  - by repeat constructor.
  - reflexivity.
  - done.
  - by vm_compute.
Defined.
